(** * MisconfigMate: a shallow embedding of [misconfigmate.py]

    The scanner of [misconfigmate.py] is a class [MisconfigMapper] whose
    methods generate candidate host names, expand them against service
    templates, probe every resulting URL and report the findings.  Each
    method is embedded below as a Rocq function of the same name; the two
    counters of the object ([discovered], [errors]) are threaded through a
    small state monad, and the network, the clock and the template file are
    inputs of the model. *)

From Stdlib Require Import Ascii ZArith Lia Bool.
From stdpp Require Import base option list gmap sets strings.

Local Open Scope Z_scope.

#[local] Set Warnings "-clear-no-such-hyp".
#[local] Arguments String.append : simpl nomatch.

(** ** Python string operations

    Python [str] values are modelled as [string]; every operation below is
    the one of the Python standard library that the source calls. *)

Module PyStr.

(** [s.startswith(p)]. *)
Fixpoint startswith (p s : string) : bool :=
  match p, s with
  | EmptyString, _ => true
  | String _ _, EmptyString => false
  | String a p', String b s' => if Ascii.eqb a b then startswith p' s' else false
  end.

(** [fp in body]: [fp] occurs somewhere in [body] as a contiguous run. *)
Fixpoint contains (fp body : string) : bool :=
  startswith fp body ||
  match body with
  | EmptyString => false
  | String _ rest => contains fp rest
  end.

(** [s.lstrip(c)] for a one-character set. *)
Fixpoint lstrip (c : ascii) (s : string) : string :=
  match s with
  | EmptyString => EmptyString
  | String a s' => if Ascii.eqb a c then lstrip c s' else s
  end.

(** [s.rstrip(c)] for a one-character set. *)
Fixpoint rstrip (c : ascii) (s : string) : string :=
  match s with
  | EmptyString => EmptyString
  | String a s' =>
      match rstrip c s' with
      | EmptyString => if Ascii.eqb a c then EmptyString else String a EmptyString
      | t => String a t
      end
  end.

(** The scanning loop of [s.replace(old, new)] for a non-empty [old]:
    [skip] counts the characters of a match that are still to be passed
    over; matches are taken left to right and do not overlap. *)
Fixpoint replace_go (old new : string) (skip : nat) (s : string) : string :=
  match s with
  | EmptyString => EmptyString
  | String a s' =>
      match skip with
      | S k => replace_go old new k s'
      | O =>
          if startswith old s
          then new +:+ replace_go old new (Nat.pred (String.length old)) s'
          else String a (replace_go old new O s')
      end
  end.

(** With an empty [old] Python puts [new] before every character and at
    the end. *)
Fixpoint replace_empty (new s : string) : string :=
  match s with
  | EmptyString => new
  | String a s' => new +:+ String a (replace_empty new s')
  end.

(** [s.replace(old, new)]. *)
Definition replace (old new s : string) : string :=
  match old with
  | EmptyString => replace_empty new s
  | String _ _ => replace_go old new O s
  end.

(** [c in s] for a single character. *)
Fixpoint mem_char (c : ascii) (s : string) : bool :=
  match s with
  | EmptyString => false
  | String a s' => Ascii.eqb a c || mem_char c s'
  end.

(** The loop of [s.split(sep)] for a non-empty [sep]; [cur] is the piece
    read so far. *)
Fixpoint split_go (sep : string) (skip : nat) (cur s : string) : list string :=
  match s with
  | EmptyString => [cur]
  | String a s' =>
      match skip with
      | S k => split_go sep k cur s'
      | O =>
          if startswith sep s
          then cur :: split_go sep (Nat.pred (String.length sep)) EmptyString s'
          else split_go sep O (cur +:+ String a EmptyString) s'
      end
  end.

(** [s.split(sep)], [sep] not empty. *)
Definition split (sep s : string) : list string := split_go sep O EmptyString s.

(** [s.split(c, 1)] when [c in s]: the text before and after the first
    [c]; [None] when [c] does not occur. *)
Fixpoint split_once (c : ascii) (s : string) : option (string * string) :=
  match s with
  | EmptyString => None
  | String a s' =>
      if Ascii.eqb a c then Some (EmptyString, s')
      else match split_once c s' with
           | Some (k, v) => Some (String a k, v)
           | None => None
           end
  end.

(** ASCII white space, as [str.isspace] sees it. *)
Definition isspace (a : ascii) : bool :=
  let n := nat_of_ascii a in
  (Nat.leb 9 n && Nat.leb n 13) || (Nat.leb 28 n && Nat.leb n 32).

Fixpoint lstrip_ws (s : string) : string :=
  match s with
  | EmptyString => EmptyString
  | String a s' => if isspace a then lstrip_ws s' else s
  end.

Fixpoint rstrip_ws (s : string) : string :=
  match s with
  | EmptyString => EmptyString
  | String a s' =>
      match rstrip_ws s' with
      | EmptyString => if isspace a then EmptyString else String a EmptyString
      | t => String a t
      end
  end.

(** [s.strip()]; characters are ASCII. *)
Definition strip (s : string) : string := rstrip_ws (lstrip_ws s).

Definition lower_char (a : ascii) : ascii :=
  let n := nat_of_ascii a in
  if Nat.leb 65 n && Nat.leb n 90 then ascii_of_nat (n + 32) else a.

(** [s.lower()]; characters are ASCII. *)
Fixpoint lower (s : string) : string :=
  match s with
  | EmptyString => EmptyString
  | String a s' => String (lower_char a) (lower s')
  end.

(** [c * n]. *)
Fixpoint times (c : ascii) (n : nat) : string :=
  match n with
  | O => EmptyString
  | S k => String c (times c k)
  end.

(** [s.endswith(c)] for a single character. *)
Fixpoint endswith_char (c : ascii) (s : string) : bool :=
  match s with
  | EmptyString => false
  | String a EmptyString => Ascii.eqb a c
  | String _ s' => endswith_char c s'
  end.

(** [sep.join(l)]. *)
Fixpoint join (sep : string) (l : list string) : string :=
  match l with
  | [] => EmptyString
  | [x] => x
  | x :: rest => x +:+ sep +:+ join sep rest
  end.

End PyStr.

(** ** Constants *)

Definition SUFFIXES : list string :=
  [ "dev"; "staging"; "stage"; "test"; "prod"; "qa";
    "internal"; "corp"; "team";
    "app"; "api"; "admin";
    "us"; "eu"; "asia" ].

Definition PREFIXES : list string :=
  [ "dev"; "staging"; "test"; "qa"; "admin"; "internal" ].

Definition TARGET : string := "{TARGET}".

(** ** Permutation generator *)

(** The body of the loop over [SUFFIXES]: two [permutations.add] calls. *)
Definition add_suffix (base_name : string) (permutations : gset string) (suffix : string)
  : gset string :=
  {[ base_name +:+ "." +:+ suffix ]} ∪ ({[ base_name +:+ "-" +:+ suffix ]} ∪ permutations).

(** The body of the loop over [PREFIXES]. *)
Definition add_prefix (base_name : string) (permutations : gset string) (prefix : string)
  : gset string :=
  {[ prefix +:+ "." +:+ base_name ]} ∪ ({[ prefix +:+ base_name ]} ∪ permutations).

(** The set built by [generate_permutations] before it is turned into a
    list. *)
Definition permutation_set (base_name : string) : gset string :=
  let permutations : gset string := ∅ in
  let permutations := {[ base_name ]} ∪ permutations in
  let permutations := foldl (add_suffix base_name) permutations SUFFIXES in
  let permutations := foldl (add_prefix base_name) permutations PREFIXES in
  permutations.

(** [generate_permutations]: [list(permutations)].  The iteration order of a
    Python set is unspecified; [elements] likewise fixes some order without
    duplicates. *)
Definition generate_permutations (base_name : string) : list string :=
  elements (permutation_set base_name).

(** The 43 strings that are added, in the order of the [add] calls. *)
Definition candidates (base_name : string) : list string :=
  base_name
    :: flat_map (fun suffix => [base_name +:+ "-" +:+ suffix; base_name +:+ "." +:+ suffix]) SUFFIXES
    ++ flat_map (fun prefix => [prefix +:+ base_name; prefix +:+ "." +:+ base_name]) PREFIXES.

(** [permutations.add(x)] for every [x] of [adds], in order. *)
Definition add_all (seen : gset string) (adds : list string) : gset string :=
  foldl (fun s x => {[ x ]} ∪ s) seen adds.

(** The [add] calls of such a loop that find their argument already
    present. *)
Fixpoint count_collisions (seen : gset string) (adds : list string) : nat :=
  match adds with
  | [] => 0%nat
  | x :: rest =>
      ((if decide (x ∈ seen) then 1 else 0) + count_collisions ({[ x ]} ∪ seen) rest)%nat
  end.

(** ** Template model *)

Inductive status_spec : Type :=
  | StatusCode (code : Z)
  | StatusCodes (codes : list Z).

Record request_spec : Type := {
  method : string;
  baseURL : string;
  path : list string;
  template_headers : option (gmap string string)
}.

Record response_spec : Type := {
  detectionFingerprints : list string;
  statusCode : status_spec;
  fingerprints : list string
}.

Record metadata_spec : Type := {
  meta_service : option string;
  serviceName : string;
  description : string;
  reproductionSteps : option (list string);
  references : option (list string)
}.

(** One entry of [templates/services.json]; [template_id] holds [str] of its [id] key. *)
Record service : Type := {
  template_id : string;
  request : request_spec;
  response : response_spec;
  metadata : metadata_spec
}.

(** ** Command line and scanner object *)

Inductive output_choice : Type := table | json | jsonl | csv | webhook.

Global Instance output_choice_eq_dec : EqDecision output_choice.
Proof. solve_decision. Defined.

Record arguments : Type := {
  arg_target : string;
  arg_service : string;
  arg_skip_checks : bool;
  arg_headers : option string;
  arg_delay : Z;
  arg_timeout : Z;
  arg_verbose : bool;
  arg_output : output_choice;
  arg_webhook : option string;
  arg_threads : Z
}.

(** The fields of [self] that [__init__] sets once. *)
Record MisconfigMapper : Type := {
  target : string;
  service_filter : string;
  delay : Z;
  headers : gmap string string;
  skip_checks : bool;
  verbose : bool;
  timeout : Z;
  output_format : output_choice;
  webhook_url : option string;
  threads : Z;
  services : list service
}.

(** ** The outside world *)

Record http_request : Type := {
  req_method : string;
  req_url : string;
  req_headers : gmap string string;
  req_verify : bool;
  req_timeout : Z;
  req_allow_redirects : bool
}.

(** The exceptions [requests.request] raises; all derive from
    [Exception]. *)
Inductive transport_failure : Type :=
  | Timeout
  | ConnectionError
  | SSLError
  | InvalidResponse.

Inductive http_outcome : Type :=
  | Responded (status_code : Z) (text : string)
  | Failed (e : transport_failure).

(** The exceptions derived from [Exception] that leave a method of the
    scanner, each with its [str()]. *)
Inductive exception : Type :=
  | ValueError (msg : string)
  | OverflowError (msg : string)
  | OSError (msg : string).

Definition exception_text (e : exception) : string :=
  match e with
  | ValueError msg | OverflowError msg | OSError msg => msg
  end.

(** What travels up the call stack: [SystemExit] from [sys.exit(code)],
    which no handler of the program catches, or an exception, which the
    handler of [main] catches. *)
Inductive raised : Type :=
  | SystemExit (code : Z)
  | Error (e : exception).

(** What opening and decoding [templates/services.json] gives: the two
    failures that [_load_services] handles, any other exception of [open]
    or [json.load], or the decoded entries. *)
Inductive services_file : Type :=
  | FileNotFound
  | JSONDecodeError
  | ReadError (e : exception)
  | Loaded (entries : list service).

Record ProbeResult : Type := {
  r_timestamp : string;
  r_target : string;
  r_url : string;
  r_exists : bool;
  r_vulnerable : bool;
  r_service : string;
  r_description : string;
  r_reproduction_steps : list string;
  r_references : list string;
  r_status_code : Z
}.

(** The JSON body of the webhook POST. *)
Record webhook_data : Type := {
  wh_timestamp : string;
  wh_target : string;
  wh_findings : list ProbeResult
}.

(** What the program reads from its environment: the answer of the network
    to every request, the answer of the webhook, the clock, the pick of
    [random.choice], the template file, and the lengths (in milliseconds)
    that the platform clock refuses as too large for [time.sleep], with the
    message of the [OverflowError]. *)
Record world : Type := {
  http : http_request -> http_outcome;
  webhook_post : option string -> webhook_data -> option string;
  now : string;
  user_agent_pick : nat;
  services_json : services_file;
  sleep_overflow : Z -> option string
}.

(** What [_format_output] returns, before it is printed. *)
Inductive formatted : Type :=
  | JsonArray (records : list ProbeResult)
  | JsonLines (lines : list ProbeResult)
  | CsvSheet (fieldnames : list string) (rows : list ProbeResult)
  | Message (text : string).

Record table_row : Type := {
  col_service : string;
  col_url : string;
  col_status : string;
  col_description : string
}.

(** What is written to the terminal. *)
Inductive console_item : Type :=
  | Text (s : string)
  | ScanResults (rows : list table_row)
  | FoundUnique (n : nat)
  | TotalDiscovered (n : nat)
  | EncounteredErrors (n : nat)
  | Printed (f : formatted)
  | Traceback (e : exception).

(** The mutable part of a run: the two counters of [self] and the effects
    on the world so far, oldest first. *)
Record state : Type := {
  discovered : nat;
  errors : nat;
  sent : list http_request;
  posted : list (option string * webhook_data);
  debug_log : list string;
  console : list console_item
}.

Definition initial_state : state :=
  {| discovered := 0; errors := 0; sent := []; posted := [];
     debug_log := []; console := [] |}.

(** ** A state monad for the methods that change [self] or the world *)

Definition M (A : Type) : Type := state -> A * state.

Global Instance M_ret : MRet M := fun A (a : A) st => (a, st).
Global Instance M_bind : MBind M := fun A B (f : A -> M B) (c : M A) st =>
  let (a, st') := c st in f a st'.

Definition modify (f : state -> state) : M unit := fun st => (tt, f st).
Definition gets {A : Type} (f : state -> A) : M A := fun st => (f st, st).

Definition incr_discovered : M unit :=
  modify (fun st => {| discovered := S (discovered st); errors := errors st;
                       sent := sent st; posted := posted st;
                       debug_log := debug_log st; console := console st |}).

Definition incr_errors : M unit :=
  modify (fun st => {| discovered := discovered st; errors := S (errors st);
                       sent := sent st; posted := posted st;
                       debug_log := debug_log st; console := console st |}).

Definition log_sent (rq : http_request) : M unit :=
  modify (fun st => {| discovered := discovered st; errors := errors st;
                       sent := sent st ++ [rq]; posted := posted st;
                       debug_log := debug_log st; console := console st |}).

Definition log_posted (to : option string) (d : webhook_data) : M unit :=
  modify (fun st => {| discovered := discovered st; errors := errors st;
                       sent := sent st; posted := posted st ++ [(to, d)];
                       debug_log := debug_log st; console := console st |}).

Definition logging_debug (msg : string) : M unit :=
  modify (fun st => {| discovered := discovered st; errors := errors st;
                       sent := sent st; posted := posted st;
                       debug_log := debug_log st ++ [msg]; console := console st |}).

Definition console_print (item : console_item) : M unit :=
  modify (fun st => {| discovered := discovered st; errors := errors st;
                       sent := sent st; posted := posted st;
                       debug_log := debug_log st; console := console st ++ [item] |}).

(** [for x in l: body(x)], collecting what the bodies return. *)
Fixpoint for_each {A B : Type} (body : A -> M B) (l : list A) : M (list B) :=
  match l with
  | [] => mret []
  | x :: rest => b ← body x; bs ← for_each body rest; mret (b :: bs)
  end.

(** ** Probe executor *)

(** [requests.request(...)]: the request goes out, the world answers. *)
Definition requests_request (w : world) (rq : http_request) : M http_outcome :=
  log_sent rq;; mret (http w rq).

(** [{**self.headers, **service.get('request', {}).get('headers', {})}]:
    the entries of the first dict, then those of the second, later values
    replacing earlier ones. *)
Definition merge_headers (global : gmap string string)
    (specific : option (gmap string string)) : gmap string string :=
  default ∅ specific ∪ global.

(** [any(fp in text for fp in fps)]. *)
Definition any_fingerprint (fps : list string) (text : string) : bool :=
  existsb (fun fp => PyStr.contains fp text) fps.

(** The [isinstance(..., list)] branches on the template's status code. *)
Definition status_match (status_code : Z) (expected : status_spec) : bool :=
  match expected with
  | StatusCodes codes => bool_decide (status_code ∈ codes)
  | StatusCode code => status_code =? code
  end.

(** The [exists] flag of a response. *)
Definition probe_exists (svc : service) (text : string) : bool :=
  any_fingerprint (detectionFingerprints (response svc)) text.

(** The [vulnerable] flag of a response. *)
Definition probe_vulnerable (self : MisconfigMapper) (svc : service)
    (status_code : Z) (text : string) : bool :=
  let exists_ := probe_exists svc text in
  if negb (skip_checks self) && exists_ then
    status_match status_code (statusCode (response svc))
    && any_fingerprint (fingerprints (response svc)) text
  else false.

(** The arguments of the [requests.request(...)] call. *)
Definition probe_request (self : MisconfigMapper) (url : string) (svc : service)
  : http_request :=
  {| req_method := method (request svc);
     req_url := PyStr.replace TARGET (target self) url;
     req_headers := merge_headers (headers self) (template_headers (request svc));
     req_verify := false;
     req_timeout := timeout self;
     req_allow_redirects := true |}.

(** The dict that [_check_endpoint] returns for a response that counts. *)
Definition probe_result (w : world) (self : MisconfigMapper) (url : string)
    (svc : service) (status_code : Z) (text : string) : ProbeResult :=
  {| r_timestamp := now w;
     r_target := target self;
     r_url := PyStr.replace TARGET (target self) url;
     r_exists := probe_exists svc text;
     r_vulnerable := probe_vulnerable self svc status_code text;
     r_service := serviceName (metadata svc);
     r_description := description (metadata svc);
     r_reproduction_steps := default [] (reproductionSteps (metadata svc));
     r_references := default [] (references (metadata svc));
     r_status_code := status_code |}.

(** The [try] block of [_check_endpoint]: [inl e] when [e] is raised inside
    it, [inr r] when it returns [r] ([None] when control falls off its
    end). *)
Definition check_endpoint_try (w : world) (self : MisconfigMapper)
    (url : string) (svc : service) : M (transport_failure + option ProbeResult) :=
  outcome ← requests_request w (probe_request self url svc);
  match outcome with
  | Failed e => mret (inl e)
  | Responded status_code text =>
      let exists_ := probe_exists svc text in
      let vulnerable := probe_vulnerable self svc status_code text in
      if exists_ || vulnerable then
        incr_discovered;;
        mret (inr (Some (probe_result w self url svc status_code text)))
      else mret (inr None)
  end.

Definition failure_text (e : transport_failure) : string :=
  match e with
  | Timeout => "Timeout"
  | ConnectionError => "ConnectionError"
  | SSLError => "SSLError"
  | InvalidResponse => "InvalidResponse"
  end.

(** [_check_endpoint]: the [try] block under its [except Exception]
    handler. *)
Definition _check_endpoint (w : world) (self : MisconfigMapper)
    (url : string) (svc : service) : M (option ProbeResult) :=
  r ← check_endpoint_try w self url svc;
  match r with
  | inr result => mret result
  | inl e =>
      incr_errors;;
      (if verbose self
       then logging_debug ("Error checking " +:+ url +:+ ": " +:+ failure_text e)
       else mret tt);;
      mret None
  end.

(** ** URL expander *)

(** [url.startswith(('http://', 'https://'))]. *)
Definition has_scheme (url : string) : bool :=
  PyStr.startswith "http://" url || PyStr.startswith "https://" url.

(** The [if not url.startswith(...)] step. *)
Definition with_scheme (url : string) : string :=
  if negb (has_scheme url) then "https://" +:+ url else url.

(** [f"{url.rstrip('/')}/{path.lstrip('/')}"]. *)
Definition join_path (url path : string) : string :=
  PyStr.rstrip "/" url +:+ "/" +:+ PyStr.lstrip "/" path.

(** The body of the innermost loop of [generate_urls]. *)
Definition expand_url (baseURL domain path : string) : string :=
  let url := PyStr.replace TARGET domain baseURL in
  let url := with_scheme url in
  join_path url path.

(** The three nested loops of [generate_urls] over a given permutation
    list. *)
Definition expand_all (svcs : list service) (permutations : list string)
  : list (string * service) :=
  svc ← svcs;
  domain ← permutations;
  p ← path (request svc);
  [(expand_url (baseURL (request svc)) domain p, svc)].

Definition generate_urls (self : MisconfigMapper) : M (list (string * service)) :=
  let permutations := generate_permutations (target self) in
  let urls := expand_all (services self) permutations in
  (if verbose self then logging_debug "Generated URLs to test" else mret tt);;
  mret urls.

(** ** Result aggregator *)

(** [results[0].keys()]. *)
Definition result_keys : list string :=
  [ "timestamp"; "target"; "url"; "exists"; "vulnerable"; "service";
    "description"; "reproduction_steps"; "references"; "status_code" ].

(** Python truth value of an optional string. *)
Definition truthy (s : option string) : bool :=
  match s with
  | Some (String _ _) => true
  | _ => false
  end.

Definition _format_output (w : world) (self : MisconfigMapper)
    (results : list ProbeResult) : M (option formatted) :=
  match results with
  | [] => mret None
  | _ :: _ =>
      match output_format self with
      | json => mret (Some (JsonArray results))
      | jsonl => mret (Some (JsonLines results))
      | csv => mret (Some (CsvSheet result_keys results))
      | webhook =>
          let data := {| wh_timestamp := now w;
                         wh_target := target self;
                         wh_findings := results |} in
          log_posted (webhook_url self) data;;
          match webhook_post w (webhook_url self) data with
          | None => mret (Some (Message "Results sent to webhook successfully"))
          | Some e => mret (Some (Message ("Error sending to webhook: " +:+ e)))
          end
      | table => mret None
      end
  end.

(** [(r['service'], r['url'])]. *)
Definition result_key (r : ProbeResult) : string * string := (r_service r, r_url r).

(** One turn of the loop that removes duplicates in [_display_table]. *)
Definition unique_step (acc : gset (string * string) * list ProbeResult)
    (r : ProbeResult) : gset (string * string) * list ProbeResult :=
  let (seen, unique_results) := acc in
  let key := result_key r in
  if decide (key ∈ seen) then acc
  else ({[ key ]} ∪ seen, unique_results ++ [r]).

Definition unique_results (results : list ProbeResult) : list ProbeResult :=
  (foldl unique_step (∅, []) results).2.

(** The table view as the specification words it: going through the results
    in order, a result is kept when no result before it has its (service
    name, url) pair, and dropped otherwise. *)
Fixpoint first_seen (seen : gset (string * string)) (results : list ProbeResult)
  : list ProbeResult :=
  match results with
  | [] => []
  | r :: rest =>
      if decide (result_key r ∈ seen) then first_seen seen rest
      else r :: first_seen ({[ result_key r ]} ∪ seen) rest
  end.

Definition status_cell (r : ProbeResult) : string :=
  let status := [] in
  let status := if r_exists r then status ++ ["[cyan]EXISTS[/]"] else status in
  let status := if r_vulnerable r then status ++ ["[red]VULNERABLE[/]"] else status in
  PyStr.join " & " status.

Definition add_row (r : ProbeResult) : table_row :=
  {| col_service := r_service r;
     col_url := r_url r;
     col_status := status_cell r;
     col_description := r_description r |}.

Definition _display_table (results : list ProbeResult) : M unit :=
  let unique := unique_results results in
  let rows := map add_row unique in
  console_print (Text "Scan Results:");;
  console_print (ScanResults rows);;
  console_print (FoundUnique (length unique));;
  d ← gets discovered;
  console_print (TotalDiscovered d);;
  e ← gets errors;
  if Nat.ltb 0 e then console_print (EncounteredErrors e) else mret tt.

(** ** Concurrency controller

    The worker pool is modelled by one of its schedules: the tasks of a
    batch run one after the other in list order, which is also the order in
    which [executor.map] hands back their results.  An exception raised by
    a task comes out of [list(executor.map(...))]. *)

(** [for x in l: body(x)] with bodies that may raise: the first exception
    ends the loop. *)
Fixpoint for_each_try {A B : Type} (body : A -> M (raised + B)) (l : list A)
  : M (raised + list B) :=
  match l with
  | [] => mret (inr [])
  | x :: rest =>
      b ← body x;
      match b with
      | inl e => mret (inl e)
      | inr b =>
          bs ← for_each_try body rest;
          match bs with
          | inl e => mret (inl e)
          | inr bs => mret (inr (b :: bs))
          end
      end
  end.

(** [time.sleep(ms / 1000)]: [Some e] when it raises [e], [None] when it
    returns. *)
Definition time_sleep (w : world) (ms : Z) : option exception :=
  if ms <? 0 then Some (ValueError "sleep length must be non-negative")
  else match sleep_overflow w ms with
       | Some msg => Some (OverflowError msg)
       | None => None
       end.

(** [if self.delay: time.sleep(self.delay/1000)]. *)
Definition delay_sleep (w : world) (self : MisconfigMapper) : option exception :=
  if delay self =? 0 then None else time_sleep w (delay self).

(** [process_url]; the update of the progress bar after the probe leaves
    the state as it is. *)
Definition process_url (w : world) (self : MisconfigMapper)
    (args : string * service) : M (raised + option ProbeResult) :=
  let (url, svc) := args in
  match delay_sleep w self with
  | Some e => mret (inl (Error e))
  | None => result ← _check_endpoint w self url svc; mret (inr result)
  end.

(** [max(1, min(10, len(urls) // 20))]. *)
Definition batch_size (n : nat) : nat := Nat.max 1 (Nat.min 10 (n / 20)).

(** [[urls[i:i + size] for i in range(0, len(urls), size)]]; [fuel] bounds
    the number of batches. *)
Fixpoint batches_go {A : Type} (fuel size : nat) (urls : list A) : list (list A) :=
  match fuel, urls with
  | O, _ | _, [] => []
  | S fuel', _ :: _ => take size urls :: batches_go fuel' size (drop size urls)
  end.

Definition url_batches {A : Type} (urls : list A) : list (list A) :=
  batches_go (length urls) (batch_size (length urls)) urls.

(** [results.extend([r for r in batch_results if r is not None])]. *)
Definition not_none {A : Type} (l : list (option A)) : list A := omap (fun r => r) l.

(** The loop [for batch in url_batches] of [scan]. *)
Definition run_batches (w : world) (self : MisconfigMapper)
    (bs : list (list (string * service))) : M (raised + list ProbeResult) :=
  per_batch ← for_each_try (fun batch =>
                 batch_results ← for_each_try (process_url w self) batch;
                 match batch_results with
                 | inl e => mret (inl e)
                 | inr rs => mret (inr (not_none rs))
                 end) bs;
  match per_batch with
  | inl e => mret (inl e)
  | inr per_batch => mret (inr (concat per_batch))
  end.

(** [scan]: [inl] when an exception leaves it.  [ThreadPoolExecutor]
    refuses a pool size that is not positive. *)
Definition scan (w : world) (self : MisconfigMapper) : M (raised + unit) :=
  urls ← generate_urls self;
  if threads self <=? 0
  then mret (inl (Error (ValueError "max_workers must be greater than 0")))
  else
    outcome ← run_batches w self (url_batches urls);
    match outcome with
    | inl e => mret (inl e)
    | inr results =>
        match output_format self with
        | table => _display_table results
        | _ =>
            formatted_output ← _format_output w self results;
            match formatted_output with
            | Some f => console_print (Printed f)
            | None => mret tt
            end
        end;;
        mret (inr tt)
    end.

(** ** Construction of the scanner and entry point *)

Definition USER_AGENTS : list string :=
  [ "Mozilla/5.0 (Windows NT 10.0; Win64; x64) AppleWebKit/537.36 (KHTML, like Gecko) Chrome/118.0.0.0 Safari/537.36";
    "Mozilla/5.0 (Macintosh; Intel Mac OS X 10_15_7) AppleWebKit/537.36 (KHTML, like Gecko) Chrome/118.0.0.0 Safari/537.36";
    "Mozilla/5.0 (Windows NT 10.0; Win64; x64; rv:109.0) Gecko/20100101 Firefox/119.0" ].

(** One turn of the loop of [_parse_headers]. *)
Definition parse_header (hs : gmap string string) (header : string) : gmap string string :=
  match PyStr.split_once ":" header with
  | Some (key, value) => <[ PyStr.strip key := PyStr.strip value ]> hs
  | None => hs
  end.

Definition _parse_headers (headers_str : option string) : gmap string string :=
  if negb (truthy headers_str) then ∅
  else foldl parse_header ∅ (PyStr.split ";;" (default "" headers_str)).

Definition matches_filter (wanted : string) (s : service) : bool :=
  bool_decide (template_id s = wanted)
  || bool_decide (meta_service (metadata s) = Some wanted).

Definition _load_services (w : world) (wanted : string) (verbose_ : bool)
  : M (raised + list service) :=
  match services_json w with
  | FileNotFound =>
      console_print (Text "Error: services.json not found. Run with --update-templates first");;
      mret (inl (SystemExit 1))
  | JSONDecodeError =>
      console_print (Text "Error: services.json is malformed");;
      mret (inl (SystemExit 1))
  | ReadError e => mret (inl (Error e))
  | Loaded entries =>
      let filtered :=
        if bool_decide (wanted ≠ "*") then filter (fun s => matches_filter wanted s = true) entries
        else entries in
      if bool_decide (wanted ≠ "*") && bool_decide (filtered = [])
      then
        console_print (Text ("Error: No service found matching '" +:+ wanted +:+ "'"));;
        mret (inl (SystemExit 1))
      else
        (if verbose_ then logging_debug "Loaded service templates" else mret tt);;
        mret (inr filtered)
  end.

(** [MisconfigMapper.__init__]. *)
Definition init (w : world) (args : arguments) : M (raised + MisconfigMapper) :=
  let headers_ := _parse_headers (arg_headers args) in
  let headers_ :=
    if bool_decide ("User-Agent" ∈ dom headers_) then headers_
    else <[ "User-Agent" :=
              nth (user_agent_pick w `mod` length USER_AGENTS) USER_AGENTS "" ]> headers_ in
  loaded ← _load_services w (arg_service args) (arg_verbose args);
  match loaded with
  | inl exit => mret (inl exit)
  | inr svcs =>
      mret (inr
        {| target := PyStr.strip (PyStr.lower (arg_target args));
           service_filter := arg_service args;
           delay := arg_delay args;
           headers := headers_;
           skip_checks := arg_skip_checks args;
           verbose := arg_verbose args;
           timeout := arg_timeout args;
           output_format := arg_output args;
           webhook_url := arg_webhook args;
           threads := arg_threads args;
           services := svcs |})
  end.

(** The [except Exception] handler of [main]. *)
Definition handle_exception (args : arguments) (e : exception) : M Z :=
  console_print (Text ("Error: " +:+ exception_text e));;
  (if arg_verbose args then console_print (Traceback e) else mret tt);;
  mret 1.

(** What [main] does with what comes out of its [try] block. *)
Definition leave_try {A : Type} (args : arguments) (r : raised + A) : M Z :=
  match r with
  | inl (SystemExit code) => mret code
  | inl (Error e) => handle_exception args e
  | inr _ => mret 0
  end.

(** [main] followed by the end of the interpreter: the value is the exit
    status of the process, [0] when [main] returns and the argument of
    [sys.exit] otherwise.  No interrupt arrives during the run. *)
Definition main (w : world) (args : arguments) : M Z :=
  if bool_decide (arg_output args = webhook) && negb (truthy (arg_webhook args)) then
    console_print (Text "Error: Webhook URL required when using webhook output format");;
    mret 0
  else
    scanner ← init w args;
    match scanner with
    | inl exit => leave_try args (inl exit : raised + unit)
    | inr self => outcome ← scan w self; leave_try args outcome
    end.

(** A whole run of the program from a fresh process. *)
Definition run (w : world) (args : arguments) : Z * state :=
  main w args initial_state.


(** ** A sample installation

    One template, a server that knows one host, and a scanner for the
    target [acme]; used to run the definitions on concrete values. *)

Module Demo.

Definition acme_tool : service :=
  {| template_id := "7";
     request := {| method := "GET";
                   baseURL := "{TARGET}.example.com";
                   path := ["/login"];
                   template_headers := Some {[ "Accept" := "text/html" ]} |};
     response := {| detectionFingerprints := ["Welcome to Acme Tool"];
                    statusCode := StatusCodes [200; 203];
                    fingerprints := ["Sign up"; "Create the first account"] |};
     metadata := {| meta_service := Some "acmetool";
                    serviceName := "Acme Tool";
                    description := "Open registration on Acme Tool";
                    reproductionSteps := Some ["Open the login page"];
                    references := None |} |}.

Definition staging_login : string := "https://acme-staging.example.com/login".

Definition server : world :=
  {| http := fun rq =>
       if bool_decide (req_url rq = staging_login)
       then Responded 200 "<h1>Welcome to Acme Tool</h1><a>Sign up</a>"
       else Failed ConnectionError;
     webhook_post := fun _ _ => None;
     now := "2024-01-01T00:00:00";
     user_agent_pick := 0;
     services_json := Loaded [acme_tool];
     sleep_overflow := fun _ => None |}.

Definition scanner : MisconfigMapper :=
  {| target := "acme";
     service_filter := "*";
     delay := 0;
     headers := {[ "Accept" := "*/*"; "User-Agent" := "probe" ]};
     skip_checks := false;
     verbose := false;
     timeout := 10;
     output_format := table;
     webhook_url := None;
     threads := 5;
     services := [acme_tool] |}.

Definition command_line : arguments :=
  {| arg_target := " Acme ";
     arg_service := "*";
     arg_skip_checks := true;
     arg_headers := Some "Accept: */*;; X-Scan: recon";
     arg_delay := 0;
     arg_timeout := 10;
     arg_verbose := false;
     arg_output := json;
     arg_webhook := None;
     arg_threads := 5 |}.

Definition finding (svc url : string) : ProbeResult :=
  {| r_timestamp := "2024-01-01T00:00:00";
     r_target := "acme";
     r_url := url;
     r_exists := true;
     r_vulnerable := false;
     r_service := svc;
     r_description := "";
     r_reproduction_steps := [];
     r_references := [];
     r_status_code := 200 |}.

End Demo.

(** ** Vocabulary for the properties of a run *)

(** [process_url] once its sleep has returned. *)
Definition probe_task (w : world) (self : MisconfigMapper)
    (task : string * service) : M (option ProbeResult) :=
  _check_endpoint w self task.1 task.2.

(** The pool of [scan] can be made and the sleep before a probe returns. *)
Definition scan_can_run (w : world) (self : MisconfigMapper) : Prop :=
  0 < threads self /\ delay_sleep w self = None.

(** The request of a task fails. *)
Definition request_fails (w : world) (self : MisconfigMapper)
    (task : string * service) : bool :=
  match http w (probe_request self task.1 task.2) with
  | Failed _ => true
  | Responded _ _ => false
  end.

(** The request a task sends. *)
Definition task_request (self : MisconfigMapper) (task : string * service)
  : http_request :=
  probe_request self task.1 task.2.

(** No character of [s] is white space. *)
Fixpoint no_space (s : string) : bool :=
  match s with
  | EmptyString => true
  | String a s' => negb (PyStr.isspace a) && no_space s'
  end.

(** [s] neither begins nor ends with white space. *)
Definition stripped (s : string) : Prop := PyStr.strip s = s.

(** Sum of the numbers of paths of the templates. *)
Definition total_paths (svcs : list service) : nat :=
  foldr (fun svc n => (length (path (request svc)) + n)%nat) 0%nat svcs.

(** The request of a task is answered with a detection fingerprint in the
    text. *)
Definition task_found (w : world) (self : MisconfigMapper)
    (task : string * service) : bool :=
  match http w (probe_request self task.1 task.2) with
  | Responded _ text => probe_exists task.2 text
  | Failed _ => false
  end.

(** The scanner that [__init__] builds for the sample command line. *)
Definition sample_scanner : MisconfigMapper :=
  match fst (init Demo.server Demo.command_line initial_state) with
  | inr self => self
  | inl _ => Demo.scanner
  end.

(** A scanner with webhook output for a target that the sample server does
    not know. *)
Definition quiet_scanner : MisconfigMapper :=
  {| target := "nobody";
     service_filter := "*";
     delay := 0;
     headers := {[ "User-Agent" := "probe" ]};
     skip_checks := false;
     verbose := false;
     timeout := 10;
     output_format := webhook;
     webhook_url := Some "https://hooks.example.com/scan";
     threads := 5;
     services := [Demo.acme_tool] |}.
(** * Properties *)

(** ** Permutation generator *)

Section Permutations.

Implicit Types (seen : gset string) (adds : list string) (x : string).

Lemma add_all_elem adds : forall seen x,
  x ∈ add_all seen adds <-> x ∈ adds \/ x ∈ seen.
Proof.
  unfold add_all.
  induction adds as [|y adds IH]; intros seen x; simpl.
  - set_solver.
  - rewrite IH. set_solver.
Qed.

Lemma add_all_size adds : forall seen,
  (size (add_all seen adds) + count_collisions seen adds = size seen + length adds)%nat.
Proof.
  unfold add_all.
  induction adds as [|y adds IH]; intros seen; simpl.
  - lia.
  - specialize (IH ({[ y ]} ∪ seen)). destruct (decide (y ∈ seen)) as [Hin|Hout].
    + replace ({[ y ]} ∪ seen) with seen in * by set_solver. lia.
    + rewrite size_union in IH by set_solver. rewrite size_singleton in IH. lia.
Qed.

Lemma permutation_set_unfold base_name :
  permutation_set base_name = add_all ∅ (candidates base_name).
Proof. reflexivity. Qed.

Lemma generate_permutations_elem base_name x :
  x ∈ generate_permutations base_name <-> x ∈ candidates base_name.
Proof.
  unfold generate_permutations.
  rewrite elem_of_elements, permutation_set_unfold, add_all_elem.
  split; [ intros [H|H]; [ exact H | by apply elem_of_empty in H ] | by left ].
Qed.

Lemma candidates_length base_name : length (candidates base_name) = 43%nat.
Proof. reflexivity. Qed.

Lemma generate_permutations_length base_name :
  (length (generate_permutations base_name)
     + count_collisions ∅ (candidates base_name) = 43)%nat.
Proof.
  unfold generate_permutations.
  pose proof (add_all_size (candidates base_name) ∅) as H.
  rewrite <- permutation_set_unfold, size_empty, candidates_length in H.
  exact H.
Qed.

Lemma suffix_candidates base_name suffix :
  suffix ∈ SUFFIXES ->
  base_name +:+ "-" +:+ suffix ∈ candidates base_name
  /\ base_name +:+ "." +:+ suffix ∈ candidates base_name.
Proof.
  intros Hin. unfold candidates.
  split; apply list_elem_of_In; right; apply in_or_app; left;
    apply in_flat_map; exists suffix;
    (split; [ by apply list_elem_of_In | simpl; tauto ]).
Qed.

Lemma prefix_candidates base_name prefix :
  prefix ∈ PREFIXES ->
  prefix +:+ base_name ∈ candidates base_name
  /\ prefix +:+ "." +:+ base_name ∈ candidates base_name.
Proof.
  intros Hin. unfold candidates.
  split; apply list_elem_of_In; right; apply in_or_app; right;
    apply in_flat_map; exists prefix;
    (split; [ by apply list_elem_of_In | simpl; tauto ]).
Qed.

End Permutations.

(** C4.  For every base name [B], [generate_permutations B] contains [B],
    [B-suffix] and [B.suffix] for each of the 15 suffixes, [prefixB] and
    [prefix.B] for each of the 6 prefixes; it has no duplicate entry; its
    entries are fixed by [B] alone (they are exactly the 43 strings that
    are added); and its length is 43 less the number of additions that
    found their string already present, so never more than 43. *)
Theorem generate_permutations_spec (B : string) :
  B ∈ generate_permutations B
  /\ length SUFFIXES = 15%nat
  /\ Forall (fun suffix => B +:+ "-" +:+ suffix ∈ generate_permutations B
                           /\ B +:+ "." +:+ suffix ∈ generate_permutations B) SUFFIXES
  /\ length PREFIXES = 6%nat
  /\ Forall (fun prefix => prefix +:+ B ∈ generate_permutations B
                           /\ prefix +:+ "." +:+ B ∈ generate_permutations B) PREFIXES
  /\ NoDup (generate_permutations B)
  /\ (forall x, x ∈ generate_permutations B <-> x ∈ candidates B)
  /\ length (candidates B) = (1 + 2 * 15 + 2 * 6)%nat
  /\ length (generate_permutations B)
     = (1 + 2 * 15 + 2 * 6 - count_collisions ∅ (candidates B))%nat
  /\ (length (generate_permutations B) <= 43)%nat.
Proof.
  pose proof (generate_permutations_length B) as Hlen.
  split; [ apply generate_permutations_elem; unfold candidates; left | ].
  split; [ reflexivity | ].
  split.
  { apply Forall_forall. intros s Hs.
    rewrite !generate_permutations_elem. by apply suffix_candidates. }
  split; [ reflexivity | ].
  split.
  { apply Forall_forall. intros p Hp.
    rewrite !generate_permutations_elem. by apply prefix_candidates. }
  split; [ unfold generate_permutations; apply NoDup_elements | ].
  split; [ intros x; apply generate_permutations_elem | ].
  split; [ reflexivity | ].
  split; lia.
Qed.

(** For most names the 43 strings are distinct; for ["dev"] the strings
    [dev.dev] built from the suffix and from the prefix coincide. *)
Example generate_permutations_acme : length (generate_permutations "acme") = 43%nat.
Proof. vm_compute. reflexivity. Qed.

Example generate_permutations_dev : length (generate_permutations "dev") = 42%nat.
Proof. vm_compute. reflexivity. Qed.

(** ** String operations *)

Section Strings.

Import PyStr.

Implicit Types (s t p old new : string) (a c : ascii).

Lemma app_assoc_s s t u : (s +:+ t) +:+ u = s +:+ t +:+ u.
Proof. induction s as [|a s IH]; simpl; [ reflexivity | by rewrite IH ]. Qed.

Lemma app_empty_r s : s +:+ "" = s.
Proof. induction s as [|a s IH]; simpl; [ reflexivity | by rewrite IH ]. Qed.

Lemma startswith_spec p : forall s,
  startswith p s = true <-> exists t, s = p +:+ t.
Proof.
  induction p as [|a p IH]; intros s; simpl.
  - split; [ intros _; by exists s | done ].
  - destruct s as [|b s]; [ split; [ done | intros [t Ht]; discriminate ] | ].
    destruct (Ascii.eqb_spec a b) as [->|Hne].
    + rewrite IH. split; intros [t Ht]; exists t; congruence.
    + split; [ done | intros [t Ht]; congruence ].
Qed.

Lemma contains_spec p : forall s,
  contains p s = true <-> exists pre post, s = pre +:+ p +:+ post.
Proof.
  induction s as [|b s IH]; simpl.
  - rewrite orb_false_r, startswith_spec. split.
    + intros [t Ht]. by exists "", t.
    + intros [pre [post H]]. destruct pre; [ by exists post | discriminate ].
  - rewrite orb_true_iff, IH, startswith_spec. split.
    + intros [[t Ht] | [pre [post H]]].
      * by exists "", t.
      * exists (String b pre), post. simpl. by rewrite H.
    + intros [pre [post H]]. destruct pre as [|b' pre]; simpl in H.
      * left. by exists post.
      * right. exists pre, post. congruence.
Qed.

Lemma startswith_length p : forall s,
  startswith p s = true -> (String.length p <= String.length s)%nat.
Proof.
  induction p as [|a p IH]; intros [|b s]; simpl; try done; try lia.
  destruct (Ascii.eqb a b); [ | done ]. intros H. apply IH in H. lia.
Qed.

(** A match of [old] cannot reach over a character that [old] lacks. *)
Lemma startswith_app_sep old c t : mem_char c old = false -> forall s,
  startswith old (s +:+ String c t) = startswith old s.
Proof.
  intros Hc. revert Hc.
  induction old as [|a old IH]; intros Hc s; [ reflexivity | ].
  simpl in Hc. apply orb_false_iff in Hc as [Hac Hc].
  destruct s as [|b s]; simpl.
  - by rewrite Hac.
  - destruct (Ascii.eqb a b); [ by apply IH | reflexivity ].
Qed.

Lemma replace_go_app_sep old new c t :
  old <> "" -> mem_char c old = false -> forall s skip,
  (skip <= String.length s)%nat ->
  replace_go old new skip (s +:+ String c t)
  = replace_go old new skip s +:+ String c (replace_go old new 0 t).
Proof.
  intros Hne Hc. induction s as [|b s IH]; intros skip Hskip; simpl in *.
  - assert (skip = 0%nat) as -> by lia.
    destruct old as [|a old]; [ done | ].
    simpl in *. apply orb_false_iff in Hc as [-> _]. reflexivity.
  - destruct skip as [|k].
    + pose proof (startswith_app_sep old c t Hc (String b s)) as Hsw.
      simpl in Hsw. rewrite Hsw.
      destruct (startswith old (String b s)) eqn:E.
      * apply startswith_length in E. simpl in E.
        rewrite IH by lia. by rewrite app_assoc_s.
      * by rewrite IH by lia.
    + apply IH. lia.
Qed.

(** [replace] works on the two sides of such a character independently. *)
Lemma replace_app_sep old new c s t :
  old <> "" -> mem_char c old = false ->
  replace old new (s +:+ String c t)
  = replace old new s +:+ String c (replace old new t).
Proof.
  intros Hne Hc. unfold replace. destruct old as [|a old]; [ done | ].
  apply replace_go_app_sep; [ done | done | lia ].
Qed.

Lemma lstrip_spec c s :
  exists n, s = times c n +:+ lstrip c s
            /\ startswith (String c "") (lstrip c s) = false.
Proof.
  induction s as [|a s [n [IH1 IH2]]]; simpl.
  - by exists 0%nat.
  - destruct (Ascii.eqb_spec a c) as [->|Hne].
    + exists (S n). split; [ simpl; by rewrite <- IH1 | done ].
    + exists 0%nat. simpl. split; [ done | ].
      destruct (Ascii.eqb_spec c a); [ congruence | done ].
Qed.

Lemma rstrip_spec c s :
  exists n, s = rstrip c s +:+ times c n
            /\ endswith_char c (rstrip c s) = false.
Proof.
  induction s as [|a s [n [IH1 IH2]]]; simpl.
  - by exists 0%nat.
  - destruct (rstrip c s) as [|b t] eqn:E.
    + simpl in IH1. destruct (Ascii.eqb_spec a c) as [->|Hne].
      * exists (S n). simpl. by rewrite <- IH1.
      * exists n. simpl. rewrite <- IH1. split; [ done | ].
        by apply Ascii.eqb_neq.
    + exists n. split; [ simpl in *; congruence | exact IH2 ].
Qed.

End Strings.

(** The operations on inputs where Python's answers are known. *)
Example replace_placeholder :
  PyStr.replace TARGET "acme" "https://{TARGET}.example.com/{TARGET}"
  = "https://acme.example.com/acme".
Proof. reflexivity. Qed.

Example replace_left_to_right : PyStr.replace "aa" "X" "aaaaa" = "XXa".
Proof. reflexivity. Qed.

Example replace_empty_pattern : PyStr.replace "" "-" "ab" = "-a-b-".
Proof. reflexivity. Qed.

Example split_headers : PyStr.split ";;" "a: 1;; b: 2;;;c" = ["a: 1"; " b: 2"; ";c"].
Proof. reflexivity. Qed.

Example strip_slashes :
  PyStr.rstrip "/" "https://host//" = "https://host"
  /\ PyStr.lstrip "/" "//a/b/" = "a/b/"
  /\ PyStr.rstrip "/" "https://" = "https:".
Proof. repeat split; reflexivity. Qed.

Example normalize_target : PyStr.strip (PyStr.lower "  AcMe.IO ") = "acme.io".
Proof. reflexivity. Qed.

Example parse_headers_example :
  _parse_headers (Some "Accept: */*;; X-Scan: a:b;;no colon here")
  = {[ "Accept" := "*/*"; "X-Scan" := "a:b" ]}.
Proof. vm_compute. reflexivity. Qed.

(** ** Probe executor *)

Section Probe.

Context (w : world) (self : MisconfigMapper) (url : string) (svc : service).

Implicit Types (st : state) (text : string) (status_code : Z).

(** The state after the request has gone out. *)
Let after_request st : state :=
  {| discovered := discovered st; errors := errors st;
     sent := sent st ++ [probe_request self url svc]; posted := posted st;
     debug_log := debug_log st; console := console st |}.

Lemma any_fingerprint_spec fps text :
  any_fingerprint fps text = true
  <-> exists fp pre post, fp ∈ fps /\ text = pre +:+ fp +:+ post.
Proof.
  unfold any_fingerprint. rewrite existsb_exists. split.
  - intros [fp [Hin Hc]]. apply contains_spec in Hc as [pre [post ->]].
    exists fp, pre, post. split; [ by apply list_elem_of_In | done ].
  - intros [fp [pre [post [Hin ->]]]]. exists fp.
    split; [ by apply list_elem_of_In | apply contains_spec; eauto ].
Qed.

Lemma status_match_spec status_code expected :
  status_match status_code expected = true
  <-> match expected with
      | StatusCode code => status_code = code
      | StatusCodes codes => status_code ∈ codes
      end.
Proof.
  destruct expected as [code|codes]; simpl.
  - apply Z.eqb_eq.
  - apply bool_decide_eq_true.
Qed.

Lemma check_endpoint_responded st status_code text :
  http w (probe_request self url svc) = Responded status_code text ->
  _check_endpoint w self url svc st
  = if probe_exists svc text || probe_vulnerable self svc status_code text
    then (Some (probe_result w self url svc status_code text),
          {| discovered := S (discovered st); errors := errors st;
             sent := sent st ++ [probe_request self url svc]; posted := posted st;
             debug_log := debug_log st; console := console st |})
    else (None, after_request st).
Proof.
  intros H. unfold _check_endpoint, check_endpoint_try, requests_request.
  unfold mbind, M_bind, mret, M_ret, log_sent, incr_discovered, modify. simpl.
  rewrite H. by destruct (probe_exists svc text || probe_vulnerable self svc status_code text).
Qed.

Lemma check_endpoint_failed st e :
  http w (probe_request self url svc) = Failed e ->
  _check_endpoint w self url svc st
  = (None,
     {| discovered := discovered st; errors := S (errors st);
        sent := sent st ++ [probe_request self url svc]; posted := posted st;
        debug_log := if verbose self
                     then debug_log st
                            ++ ["Error checking " +:+ url +:+ ": " +:+ failure_text e]
                     else debug_log st;
        console := console st |}).
Proof.
  intros H. unfold _check_endpoint, check_endpoint_try, requests_request.
  unfold mbind, M_bind, mret, M_ret, log_sent, incr_errors, logging_debug, modify. simpl.
  rewrite H. by destruct (verbose self).
Qed.

Lemma probe_vulnerable_exists status_code text :
  probe_vulnerable self svc status_code text = true -> probe_exists svc text = true.
Proof.
  unfold probe_vulnerable. destruct (probe_exists svc text); [ done | ].
  by rewrite andb_false_r.
Qed.

Lemma check_endpoint_flags st st' status_code text r :
  http w (probe_request self url svc) = Responded status_code text ->
  _check_endpoint w self url svc st = (Some r, st') ->
  r_exists r = probe_exists svc text
  /\ r_vulnerable r = probe_vulnerable self svc status_code text.
Proof.
  intros H Hr. rewrite (check_endpoint_responded _ _ _ H) in Hr.
  destruct (probe_exists svc text || probe_vulnerable self svc status_code text);
    [ | discriminate ].
  by injection Hr as <- _.
Qed.

End Probe.

(** C2.  When the server answers, the [exists] flag computed by the probe is
    true exactly when one of the template's detection fingerprints occurs in
    the response text as it stands (the text splits into something, the
    fingerprint character for character, something); a result that is
    returned carries this flag. *)
Theorem exists_flag_iff_fingerprint (w : world) (self : MisconfigMapper)
    (url : string) (svc : service) (st : state) (status_code : Z) (text : string) :
  http w (probe_request self url svc) = Responded status_code text ->
  (probe_exists svc text = true
   <-> exists fp pre post,
         fp ∈ detectionFingerprints (response svc) /\ text = pre +:+ fp +:+ post)
  /\ (forall r st', _check_endpoint w self url svc st = (Some r, st') ->
        r_exists r = probe_exists svc text).
Proof.
  intros H. split.
  - apply any_fingerprint_spec.
  - intros r st' Hr. by destruct (check_endpoint_flags w self url svc st st' _ _ r H Hr).
Qed.

Lemma exists_flag_iff_fingerprint_witness :
  http Demo.server (probe_request Demo.scanner Demo.staging_login Demo.acme_tool)
  = Responded 200 "<h1>Welcome to Acme Tool</h1><a>Sign up</a>"
  /\ (probe_exists Demo.acme_tool "<h1>Welcome to Acme Tool</h1><a>Sign up</a>" = true
      <-> exists fp pre post,
            fp ∈ detectionFingerprints (response Demo.acme_tool)
            /\ "<h1>Welcome to Acme Tool</h1><a>Sign up</a>" = pre +:+ fp +:+ post).
Proof.
  split; [ reflexivity | ].
  exact (proj1 (exists_flag_iff_fingerprint Demo.server Demo.scanner Demo.staging_login
                  Demo.acme_tool initial_state 200 _ eq_refl)).
Defined.

(** Bodies with no, one and several fingerprints; matching is sensitive to
    case. *)
Example any_fingerprint_none : any_fingerprint ["Jenkins"; "Grafana"] "<h1>Hello</h1>" = false.
Proof. reflexivity. Qed.

Example any_fingerprint_one : any_fingerprint ["Jenkins"; "Grafana"] "Welcome to Grafana" = true.
Proof. reflexivity. Qed.

Example any_fingerprint_several :
  any_fingerprint ["Jenkins"; "Grafana"] "Grafana on Jenkins" = true.
Proof. reflexivity. Qed.

Example any_fingerprint_case : any_fingerprint ["Grafana"] "welcome to grafana" = false.
Proof. reflexivity. Qed.

(** C1.  When the server answers, the [vulnerable] flag is true exactly
    when [exists] is true, skip-checks is off, the status code is the
    template's code (or one of its codes, when it gives a list) and a
    vulnerability fingerprint occurs in the response text; with skip-checks
    on it is false; a result that is returned carries this flag, and is
    never vulnerable without existing. *)
Theorem vulnerable_flag_iff (w : world) (self : MisconfigMapper)
    (url : string) (svc : service) (st : state) (status_code : Z) (text : string) :
  http w (probe_request self url svc) = Responded status_code text ->
  (probe_vulnerable self svc status_code text = true
   <-> probe_exists svc text = true
       /\ skip_checks self = false
       /\ match statusCode (response svc) with
          | StatusCode code => status_code = code
          | StatusCodes codes => status_code ∈ codes
          end
       /\ exists fp pre post,
            fp ∈ fingerprints (response svc) /\ text = pre +:+ fp +:+ post)
  /\ (skip_checks self = true -> probe_vulnerable self svc status_code text = false)
  /\ (forall r st', _check_endpoint w self url svc st = (Some r, st') ->
        r_vulnerable r = probe_vulnerable self svc status_code text
        /\ (r_vulnerable r = true -> r_exists r = true)).
Proof.
  intros H. split; [ | split ].
  - unfold probe_vulnerable.
    rewrite <- any_fingerprint_spec, <- status_match_spec.
    destruct (skip_checks self), (probe_exists svc text); simpl;
      rewrite ?andb_true_iff; intuition congruence.
  - intros Hskip. unfold probe_vulnerable. by rewrite Hskip.
  - intros r st' Hr.
    destruct (check_endpoint_flags w self url svc st st' _ _ r H Hr) as [He Hv].
    split; [ exact Hv | ]. rewrite He, Hv. apply probe_vulnerable_exists.
Qed.

Lemma vulnerable_flag_iff_witness :
  http Demo.server (probe_request Demo.scanner Demo.staging_login Demo.acme_tool)
  = Responded 200 "<h1>Welcome to Acme Tool</h1><a>Sign up</a>"
  /\ probe_vulnerable Demo.scanner Demo.acme_tool 200
       "<h1>Welcome to Acme Tool</h1><a>Sign up</a>" = true.
Proof.
  split; [ reflexivity | ].
  apply (proj1 (vulnerable_flag_iff Demo.server Demo.scanner Demo.staging_login
                  Demo.acme_tool initial_state 200 _ eq_refl)).
  split; [ reflexivity | ]. split; [ reflexivity | ].
  split; [ apply list_elem_of_In; simpl; tauto | ].
  exists "Sign up", "<h1>Welcome to Acme Tool</h1><a>", "</a>".
  split; [ apply list_elem_of_In; simpl; tauto | reflexivity ].
Defined.

(** C3.  [_check_endpoint] always returns.  When the request fails, the
    failure raised inside the [try] block is caught: the call yields [None]
    and the error tally grows by one.  When the server answers, the call
    yields the populated result exactly when [exists] or [vulnerable]
    holds, and [None] otherwise, leaving the error tally as it was.  The
    populated result holds the time, the target, the URL requested, the two
    flags, the template's service name, description, reproduction steps and
    references (empty when the template has none), and the status code of
    the response. *)
Theorem check_endpoint_never_raises (w : world) (self : MisconfigMapper)
    (url : string) (svc : service) (st : state) :
  match http w (probe_request self url svc) with
  | Failed e =>
      (exists st1, check_endpoint_try w self url svc st = (inl e, st1))
      /\ exists st', _check_endpoint w self url svc st = (None, st')
                     /\ errors st' = S (errors st)
                     /\ discovered st' = discovered st
  | Responded status_code text =>
      let hit := probe_exists svc text || probe_vulnerable self svc status_code text in
      exists st', _check_endpoint w self url svc st
                  = (if hit
                     then Some
                       {| r_timestamp := now w;
                          r_target := target self;
                          r_url := PyStr.replace TARGET (target self) url;
                          r_exists := probe_exists svc text;
                          r_vulnerable := probe_vulnerable self svc status_code text;
                          r_service := serviceName (metadata svc);
                          r_description := description (metadata svc);
                          r_reproduction_steps :=
                            match reproductionSteps (metadata svc) with
                            | Some steps => steps
                            | None => []
                            end;
                          r_references :=
                            match references (metadata svc) with
                            | Some refs => refs
                            | None => []
                            end;
                          r_status_code := status_code |}
                     else None, st')
                  /\ errors st' = errors st
                  /\ discovered st' = if hit then S (discovered st) else discovered st
  end.
Proof.
  destruct (http w (probe_request self url svc)) as [status_code text|e] eqn:H.
  - simpl. rewrite (check_endpoint_responded _ _ _ _ _ _ _ H).
    destruct (probe_exists svc text || probe_vulnerable self svc status_code text);
      eexists; split; try reflexivity; simpl; done.
  - split.
    + unfold check_endpoint_try, requests_request, mbind, M_bind, mret, M_ret,
        log_sent, modify. simpl. rewrite H. by eexists.
    + rewrite (check_endpoint_failed _ _ _ _ _ _ H).
      eexists; split; [ reflexivity | simpl; done ].
Qed.

(** C8.  The request that [_check_endpoint] sends carries the merged
    headers: under every key the template's value when the template has
    one, and the global value otherwise. *)
Theorem request_headers_merge (w : world) (self : MisconfigMapper)
    (url : string) (svc : service) (st : state) :
  sent (snd (_check_endpoint w self url svc st)) = sent st ++ [probe_request self url svc]
  /\ forall key,
       req_headers (probe_request self url svc) !! key
       = match default ∅ (template_headers (request svc)) !! key with
         | Some v => Some v
         | None => headers self !! key
         end.
Proof.
  split.
  - destruct (http w (probe_request self url svc)) as [status_code text|e] eqn:H.
    + rewrite (check_endpoint_responded _ _ _ _ _ _ _ H).
      by destruct (probe_exists svc text || probe_vulnerable self svc status_code text).
    + by rewrite (check_endpoint_failed _ _ _ _ _ _ H).
  - intros key. simpl. unfold merge_headers. rewrite lookup_union.
    destruct (default ∅ (template_headers (request svc)) !! key),
             (headers self !! key); reflexivity.
Qed.

Example request_headers_demo :
  req_headers (probe_request Demo.scanner Demo.staging_login Demo.acme_tool)
  = {[ "Accept" := "text/html"; "User-Agent" := "probe" ]}.
Proof. vm_compute. reflexivity. Qed.

(** ** URL expander *)

Lemma expand_all_elem (svcs : list service) (permutations : list string)
    (url : string) (svc : service) :
  (url, svc) ∈ expand_all svcs permutations
  <-> svc ∈ svcs
      /\ exists domain p, domain ∈ permutations /\ p ∈ path (request svc)
                          /\ url = expand_url (baseURL (request svc)) domain p.
Proof.
  unfold expand_all. rewrite list_elem_of_bind. split.
  - intros [svc' [H Hsvc]]. apply list_elem_of_bind in H as [domain [H Hd]].
    apply list_elem_of_bind in H as [p [H Hp]].
    apply list_elem_of_singleton in H. injection H as -> ->. eauto 6.
  - intros [Hsvc [domain [p [Hd [Hp ->]]]]]. exists svc. split; [ | done ].
    apply list_elem_of_bind. exists domain. split; [ | done ].
    apply list_elem_of_bind. exists p. split; [ | done ].
    by apply list_elem_of_singleton.
Qed.

(** The tasks of [generate_urls]: one per template, permutation of the
    target and path of the template. *)
Lemma generate_urls_tasks (self : MisconfigMapper) (st : state) (url : string)
    (svc : service) :
  (url, svc) ∈ fst (generate_urls self st)
  <-> svc ∈ services self
      /\ exists domain p, domain ∈ candidates (target self) /\ p ∈ path (request svc)
                          /\ url = expand_url (baseURL (request svc)) domain p.
Proof.
  assert (fst (generate_urls self st)
          = expand_all (services self) (generate_permutations (target self))) as ->.
  { unfold generate_urls, mbind, M_bind, mret, M_ret, logging_debug, modify.
    by destruct (verbose self). }
  rewrite expand_all_elem. split.
  - intros [Hsvc [domain [p [Hd H]]]]. apply generate_permutations_elem in Hd. eauto 6.
  - intros [Hsvc [domain [p [Hd H]]]]. apply generate_permutations_elem in Hd. eauto 6.
Qed.

Lemma replace_keeps_scheme (domain url : string) :
  has_scheme url = true -> has_scheme (PyStr.replace TARGET domain url) = true.
Proof.
  unfold has_scheme. rewrite !orb_true_iff, !startswith_spec.
  intros [[t ->] | [t ->]]; [ left | right ];
    exists (PyStr.replace TARGET domain t); reflexivity.
Qed.

Lemma with_scheme_has_scheme (url : string) : has_scheme (with_scheme url) = true.
Proof.
  unfold with_scheme. destruct (has_scheme url) eqn:E; simpl; [ exact E | ].
  unfold has_scheme. apply orb_true_iff. right. apply startswith_spec. by exists url.
Qed.

Lemma with_scheme_idempotent (url : string) :
  with_scheme (with_scheme url) = with_scheme url.
Proof.
  unfold with_scheme at 1. by rewrite with_scheme_has_scheme.
Qed.

Lemma replace_first_char (domain rest : string) (c : ascii) :
  c <> "{"%char ->
  PyStr.replace TARGET domain (String c rest)
  = String c (PyStr.replace TARGET domain rest).
Proof.
  intros Hc. unfold PyStr.replace, TARGET.
  change (PyStr.replace_go "{TARGET}" domain 0 (String c rest))
    with (if (if Ascii.eqb "{" c then PyStr.startswith "TARGET}" rest else false)
          then domain +:+ PyStr.replace_go "{TARGET}" domain 7 rest
          else String c (PyStr.replace_go "{TARGET}" domain 0 rest)).
  assert (Ascii.eqb "{" c = false) as -> by (apply Ascii.eqb_neq; congruence).
  reflexivity.
Qed.

Lemma no_scheme_first_char (c : ascii) (s : string) :
  c <> "h"%char -> has_scheme (String c s) = false.
Proof.
  intros Hc. unfold has_scheme.
  change (PyStr.startswith "http://" (String c s))
    with (if Ascii.eqb "h" c then PyStr.startswith "ttp://" s else false).
  change (PyStr.startswith "https://" (String c s))
    with (if Ascii.eqb "h" c then PyStr.startswith "ttps://" s else false).
  assert (Ascii.eqb "h" c = false) as -> by (apply Ascii.eqb_neq; congruence).
  reflexivity.
Qed.

(** C5.  The URL that is normalized is the template's base URL with the
    permutation put in.  When the template's base URL carries [http://] or
    [https://], so does this URL, and it is left as it is.  When this URL
    carries neither, it gains [https://] once (as it always does when the
    template's base URL begins with a character other than [h] and the
    placeholder's brace), and otherwise nothing; the step is idempotent.
    The generated URL is the normalized URL without its trailing slashes,
    one slash, and the path without its leading slashes. *)
Theorem expand_url_normalizes (base domain p : string) :
  let url := PyStr.replace TARGET domain base in
  (has_scheme base = true -> has_scheme url = true /\ with_scheme url = url)
  /\ (has_scheme url = true -> with_scheme url = url)
  /\ (has_scheme url = false ->
        with_scheme url = "https://" +:+ url
        /\ PyStr.startswith "https://https://" (with_scheme url) = false
        /\ PyStr.startswith "https://http://" (with_scheme url) = false)
  /\ (forall c rest, base = String c rest -> c <> "h"%char -> c <> "{"%char ->
        with_scheme url = "https://" +:+ url)
  /\ has_scheme (with_scheme url) = true
  /\ with_scheme (with_scheme url) = with_scheme url
  /\ exists host rest n m,
       with_scheme url = host +:+ PyStr.times "/" n
       /\ PyStr.endswith_char "/" host = false
       /\ p = PyStr.times "/" m +:+ rest
       /\ PyStr.startswith "/" rest = false
       /\ expand_url base domain p = host +:+ "/" +:+ rest.
Proof.
  intros url.
  split.
  { intros H. apply (replace_keeps_scheme domain) in H. fold url in H.
    split; [ exact H | ]. unfold with_scheme. by rewrite H. }
  split; [ intros H; unfold with_scheme; by rewrite H | ].
  split.
  { intros H. unfold with_scheme. rewrite H. simpl.
    split; [ done | ].
    unfold has_scheme in H. apply orb_false_iff in H as [Hhttp Hhttps].
    split; [ exact Hhttps | exact Hhttp ]. }
  split.
  { intros c rest -> Hh Hb. subst url. rewrite (replace_first_char _ _ _ Hb).
    unfold with_scheme. by rewrite (no_scheme_first_char _ _ Hh). }
  split; [ apply with_scheme_has_scheme | ].
  split; [ apply with_scheme_idempotent | ].
  destruct (rstrip_spec "/" (with_scheme url)) as [n [Hn Hend]].
  destruct (lstrip_spec "/" p) as [m [Hm Hstart]].
  exists (PyStr.rstrip "/" (with_scheme url)), (PyStr.lstrip "/" p), n, m.
  repeat split; done.
Qed.

(** The scheme test is made after the substitution: with a target that
    itself begins with a scheme, a template whose base URL begins with the
    placeholder gives a URL that has its scheme from the target, and no
    [https://] is put before it. *)
Example expand_url_scheme_from_target :
  has_scheme "{TARGET}.example.com" = false
  /\ PyStr.strip (PyStr.lower "http://acme") = "http://acme"
  /\ "http://acme" ∈ generate_permutations "http://acme"
  /\ has_scheme (PyStr.replace TARGET "http://acme" "{TARGET}.example.com") = true
  /\ expand_url "{TARGET}.example.com" "http://acme" "/login"
     = "http://acme.example.com/login"
  /\ expand_url "www.{TARGET}.example.com" "http://acme" "/login"
     = "https://www.http://acme.example.com/login".
Proof.
  split; [ reflexivity | ]. split; [ reflexivity | ].
  split; [ apply generate_permutations_elem; left | ].
  repeat split; reflexivity.
Qed.

Example expand_url_slashes :
  expand_url "https://{TARGET}.example.com//" "acme-dev" "//admin/"
  = "https://acme-dev.example.com/admin/".
Proof. reflexivity. Qed.

Example expand_url_default_scheme :
  expand_url "{TARGET}.example.com" "acme-dev" "login"
  = "https://acme-dev.example.com/login".
Proof. reflexivity. Qed.

(** C10.  [generate_urls] puts the permutation into the base URL only: the
    path is appended as it is.  At probe time every [{TARGET}] still in the
    URL is replaced by the target of the scanner, so the path part of the
    requested URL is the path with the base target put in, whatever the
    permutation. *)
Theorem target_in_path_is_base_target (self : MisconfigMapper) (svc : service)
    (base domain p : string) :
  let host := PyStr.rstrip "/" (with_scheme (PyStr.replace TARGET domain base)) in
  expand_url base domain p = host +:+ "/" +:+ PyStr.lstrip "/" p
  /\ req_url (probe_request self (expand_url base domain p) svc)
     = PyStr.replace TARGET (target self) host
       +:+ "/" +:+ PyStr.replace TARGET (target self) (PyStr.lstrip "/" p).
Proof.
  intros host. split; [ reflexivity | ].
  change (req_url (probe_request self (expand_url base domain p) svc))
    with (PyStr.replace TARGET (target self) (host +:+ String "/" (PyStr.lstrip "/" p))).
  by rewrite replace_app_sep.
Qed.

Example target_in_path_demo :
  map (fun domain =>
         req_url (probe_request Demo.scanner
                    (expand_url "https://{TARGET}.example.com" domain "/{TARGET}/admin")
                    Demo.acme_tool))
      ["acme"; "acme-dev"; "staging.acme"]
  = [ "https://acme.example.com/acme/admin";
      "https://acme-dev.example.com/acme/admin";
      "https://staging.acme.example.com/acme/admin" ].
Proof. reflexivity. Qed.

(** ** Result aggregator *)

Section Dedup.

Implicit Types (seen : gset (string * string)) (results acc : list ProbeResult).

Lemma unique_fold results : forall seen acc,
  (foldl unique_step (seen, acc) results).2 = acc ++ first_seen seen results.
Proof.
  induction results as [|r rest IH]; intros seen acc; simpl.
  - by rewrite app_nil_r.
  - destruct (decide (result_key r ∈ seen)); rewrite IH; [ done | ].
    by rewrite <- app_assoc.
Qed.

Lemma unique_results_first_seen results :
  unique_results results = first_seen ∅ results.
Proof. unfold unique_results. by rewrite unique_fold. Qed.

Lemma first_seen_filter k results : forall seen,
  first_seen ({[ k ]} ∪ seen) results
  = first_seen seen (filter (fun x => result_key x <> k) results).
Proof.
  induction results as [|r rest IH]; intros seen; [ done | ].
  rewrite filter_cons. simpl.
  destruct (decide (result_key r <> k)) as [Hne|Heq]; simpl.
  - destruct (decide (result_key r ∈ seen)) as [Hin|Hout].
    + rewrite decide_True by set_solver. apply IH.
    + rewrite decide_False by set_solver. f_equal.
      rewrite <- IH. f_equal. set_solver.
  - rewrite decide_True by (destruct (decide (result_key r = k)); set_solver).
    apply IH.
Qed.

Lemma first_seen_sublist results : forall seen, first_seen seen results `sublist_of` results.
Proof.
  induction results as [|r rest IH]; intros seen; simpl; [ done | ].
  destruct (decide (result_key r ∈ seen)).
  - by apply sublist_cons.
  - by apply sublist_skip.
Qed.

Lemma first_seen_fresh results : forall seen r,
  r ∈ first_seen seen results -> result_key r ∉ seen.
Proof.
  induction results as [|x rest IH]; intros seen r; simpl.
  - intros H. inversion H.
  - destruct (decide (result_key x ∈ seen)) as [Hin|Hout]; [ by apply IH | ].
    intros [->|H]%elem_of_cons; [ done | ].
    apply IH in H. set_solver.
Qed.

Lemma first_seen_NoDup results : forall seen,
  NoDup (map result_key (first_seen seen results)).
Proof.
  induction results as [|x rest IH]; intros seen; simpl; [ constructor | ].
  destruct (decide (result_key x ∈ seen)) as [Hin|Hout]; [ by apply IH | ].
  simpl. constructor; [ | by apply IH ].
  rewrite list_elem_of_In, in_map_iff. intros Hx. destruct Hx as [r [Hk Hr]].
  apply list_elem_of_In, first_seen_fresh in Hr.
  apply Hr. rewrite Hk. by apply elem_of_union_l, elem_of_singleton.
Qed.

Lemma first_seen_covers results : forall seen r,
  r ∈ results ->
  result_key r ∈ seen \/ result_key r ∈ map result_key (first_seen seen results).
Proof.
  induction results as [|x rest IH]; intros seen r; simpl.
  - intros H. inversion H.
  - intros [->|H]%elem_of_cons.
    + destruct (decide (result_key x ∈ seen)); [ by left | right; simpl; left ].
    + destruct (decide (result_key x ∈ seen)) as [Hin|Hout]; [ by apply IH | ].
      destruct (IH ({[ result_key x ]} ∪ seen) r H) as [Hs|Hs].
      * apply elem_of_union in Hs as [Hs|Hs]; [ | by left ].
        apply elem_of_singleton in Hs. right. simpl. rewrite Hs. left.
      * right. simpl. by right.
Qed.

End Dedup.

Lemma display_table_state (results : list ProbeResult) (st : state) :
  _display_table results st
  = (tt,
     {| discovered := discovered st; errors := errors st;
        sent := sent st; posted := posted st; debug_log := debug_log st;
        console :=
          console st
            ++ [ Text "Scan Results:";
                 ScanResults (map add_row (unique_results results));
                 FoundUnique (length (unique_results results));
                 TotalDiscovered (discovered st) ]
            ++ (if Nat.ltb 0 (errors st) then [EncounteredErrors (errors st)] else []) |}).
Proof.
  unfold _display_table, mbind, M_bind, mret, M_ret, console_print, gets, modify.
  simpl. destruct (Nat.ltb 0 (errors st)); simpl;
    rewrite <- ?app_assoc; simpl; rewrite ?app_nil_r; reflexivity.
Qed.

(** C6.  The table view goes through the results in order and keeps a
    result exactly when no earlier one has its (service name, url) pair: the
    first result is kept and every later one with its pair is dropped; the
    rows shown have distinct pairs, stand in their original order, and every
    result has its pair among them.  The table reports the number of rows
    kept and the [discovered] counter.  The json, jsonl, csv and webhook
    outputs hold the result list as it is. *)
Theorem table_dedup_machine_raw (w : world) (self : MisconfigMapper)
    (results : list ProbeResult) (st : state) :
  unique_results results = first_seen ∅ results
  /\ (forall r rest,
        unique_results (r :: rest)
        = r :: unique_results
                 (filter (fun x => ~ (r_service x = r_service r /\ r_url x = r_url r))
                    rest))
  /\ NoDup (map (fun r => (r_service r, r_url r)) (unique_results results))
  /\ unique_results results `sublist_of` results
  /\ (forall r, r ∈ results ->
        exists kept, kept ∈ unique_results results
                     /\ r_service kept = r_service r /\ r_url kept = r_url r)
  /\ console (snd (_display_table results st))
     = console st
         ++ [ Text "Scan Results:";
              ScanResults (map add_row (unique_results results));
              FoundUnique (length (unique_results results));
              TotalDiscovered (discovered st) ]
         ++ (if Nat.ltb 0 (errors st) then [EncounteredErrors (errors st)] else [])
  /\ match output_format self with
     | json =>
         _format_output w self results st
         = (match results with [] => None | _ :: _ => Some (JsonArray results) end, st)
     | jsonl =>
         _format_output w self results st
         = (match results with [] => None | _ :: _ => Some (JsonLines results) end, st)
     | csv =>
         _format_output w self results st
         = (match results with
            | [] => None
            | _ :: _ => Some (CsvSheet result_keys results)
            end, st)
     | webhook =>
         posted (snd (_format_output w self results st))
         = posted st
             ++ match results with
                | [] => []
                | _ :: _ => [(webhook_url self,
                              {| wh_timestamp := now w;
                                 wh_target := target self;
                                 wh_findings := results |})]
                end
     | table => _format_output w self results st = (None, st)
     end.
Proof.
  split; [ apply unique_results_first_seen | ].
  split.
  { intros r rest. rewrite !unique_results_first_seen. simpl.
    rewrite decide_False by set_solver. f_equal. rewrite first_seen_filter.
    f_equal. apply list_filter_iff. intros x. unfold result_key.
    split; [ intros Hne [H1 H2]; apply Hne; by rewrite H1, H2
           | intros Hne [= H1 H2]; by apply Hne ]. }
  split.
  { rewrite unique_results_first_seen.
    change (fun r : ProbeResult => (r_service r, r_url r)) with result_key.
    apply first_seen_NoDup. }
  split; [ rewrite unique_results_first_seen; apply first_seen_sublist | ].
  split.
  { intros r Hr. rewrite unique_results_first_seen.
    destruct (first_seen_covers results ∅ r Hr) as [H|H]; [ set_solver | ].
    apply list_elem_of_In, in_map_iff in H as (kept & Hk & Hin).
    exists kept. split; [ by apply list_elem_of_In | ].
    unfold result_key in Hk. by injection Hk. }
  split; [ by rewrite display_table_state | ].
  unfold _format_output.
  destruct (output_format self), results as [|r rest]; try reflexivity.
  - simpl. by rewrite app_nil_r.
  - unfold mbind, M_bind, log_posted, modify. simpl.
    by destruct (webhook_post w (webhook_url self) _).
Qed.

(** The example of the specification: two results for the same service and
    URL followed by one for another service. *)
Example table_dedup_example :
  let a := Demo.finding "svcA" "url1" in
  let b := Demo.finding "svcB" "url1" in
  unique_results [a; a; b] = [a; b]
  /\ map (fun fmt =>
            fst (_format_output Demo.server
                   {| target := "acme"; service_filter := "*"; delay := 0;
                      headers := ∅; skip_checks := false; verbose := false;
                      timeout := 10; output_format := fmt; webhook_url := None;
                      threads := 5; services := [] |}
                   [a; a; b] initial_state))
         [json; jsonl; csv]
     = [ Some (JsonArray [a; a; b]); Some (JsonLines [a; a; b]);
         Some (CsvSheet result_keys [a; a; b]) ].
Proof. split; reflexivity. Qed.

(** Results are told apart by the service name and by the URL: one that
    differs from an earlier result in either is kept. *)
Example table_dedup_both_fields :
  let a := Demo.finding "svcA" "url1" in
  let b := Demo.finding "svcA" "url2" in
  let c := Demo.finding "svcB" "url1" in
  unique_results [a; b; c; b; a; c] = [a; b; c].
Proof. reflexivity. Qed.

(** ** Concurrency controller, in the sequential schedule *)

Lemma batches_go_concat {A : Type} (size : nat) : forall (fuel : nat) (urls : list A),
  (1 <= size)%nat -> (length urls <= fuel)%nat ->
  concat (batches_go fuel size urls) = urls.
Proof.
  induction fuel as [|fuel IH]; intros urls Hsize Hfuel.
  - destruct urls; [ done | simpl in Hfuel; lia ].
  - destruct urls as [|u urls]; [ done | ].
    change (batches_go (S fuel) size (u :: urls))
      with (take size (u :: urls) :: batches_go fuel size (drop size (u :: urls))).
    rewrite concat_cons, IH; [ apply take_drop | done | ].
    rewrite length_drop. simpl in *. lia.
Qed.

(** Every task is in exactly one batch, in order. *)
Lemma url_batches_concat {A : Type} (urls : list A) : concat (url_batches urls) = urls.
Proof.
  unfold url_batches, batch_size. apply batches_go_concat; lia.
Qed.

Lemma batch_size_bounds (n : nat) : (1 <= batch_size n <= 10)%nat.
Proof. unfold batch_size. lia. Qed.

Lemma for_each_cons {A B : Type} (body : A -> M B) (x : A) (rest : list A) (st : state) :
  for_each body (x :: rest) st
  = let (b, st1) := body x st in
    let (bs, st2) := for_each body rest st1 in
    (b :: bs, st2).
Proof. reflexivity. Qed.

(** A probe adds one to [discovered] exactly when it returns a result. *)
Lemma check_endpoint_discovered (w : world) (self : MisconfigMapper)
    (url : string) (svc : service) (st : state) :
  discovered (snd (_check_endpoint w self url svc st))
  = (discovered st
     + length (not_none [fst (_check_endpoint w self url svc st)]))%nat.
Proof.
  destruct (http w (probe_request self url svc)) as [status_code text|e] eqn:H.
  - rewrite (check_endpoint_responded _ _ _ _ _ _ _ H).
    destruct (probe_exists svc text || probe_vulnerable self svc status_code text);
      simpl; lia.
  - rewrite (check_endpoint_failed _ _ _ _ _ _ H). simpl. lia.
Qed.

Lemma batch_discovered (w : world) (self : MisconfigMapper)
    (batch : list (string * service)) : forall st,
  discovered (snd (for_each (probe_task w self) batch st))
  = (discovered st
     + length (not_none (fst (for_each (probe_task w self) batch st))))%nat.
Proof.
  induction batch as [|[url svc] batch IH]; intros st.
  - simpl. lia.
  - rewrite for_each_cons.
    pose proof (check_endpoint_discovered w self url svc st) as H1.
    change (probe_task w self (url, svc) st) with (_check_endpoint w self url svc st).
    destruct (_check_endpoint w self url svc st) as [b st1].
    specialize (IH st1).
    destruct (for_each (probe_task w self) batch st1) as [bs st2].
    simpl in *. destruct b; simpl in *; lia.
Qed.

(** Tasks whose requests all fail, run one after the other, leave the error
    counter higher by their number and yield no result. *)
Lemma failing_tasks_errors (w : world) (self : MisconfigMapper)
    (tasks : list (string * service)) : forall st,
  Forall (fun task => exists e, http w (probe_request self task.1 task.2) = Failed e) tasks ->
  not_none (fst (for_each (probe_task w self) tasks st)) = []
  /\ errors (snd (for_each (probe_task w self) tasks st)) = (errors st + length tasks)%nat
  /\ discovered (snd (for_each (probe_task w self) tasks st)) = discovered st.
Proof.
  induction tasks as [|[url svc] tasks IH]; intros st Hall.
  - simpl. repeat split; lia.
  - apply Forall_cons in Hall as [[e He] Hall]. simpl in He.
    change (for_each (probe_task w self) ((url, svc) :: tasks) st)
      with (let (b, st1) := _check_endpoint w self url svc st in
            let (bs, st2) := for_each (probe_task w self) tasks st1 in
            (b :: bs, st2)).
    rewrite (check_endpoint_failed _ _ _ _ _ _ He).
    match goal with |- context [for_each _ tasks ?s] => specialize (IH s Hall) end.
    destruct (for_each (probe_task w self) tasks _) as [bs st2].
    simpl in *. destruct IH as (Hn & He2 & Hd). repeat split; [ done | lia | done ].
Qed.

(** ** Entry point *)

(** C7, as the code has it.  With webhook output and no webhook URL, [main]
    prints the error and returns before a scanner is built: nothing is
    loaded and no request is sent, and the process ends with status 0, not
    1. *)
Theorem main_webhook_without_url (w : world) (args : arguments) :
  run w {| arg_target := arg_target args;
           arg_service := arg_service args;
           arg_skip_checks := arg_skip_checks args;
           arg_headers := arg_headers args;
           arg_delay := arg_delay args;
           arg_timeout := arg_timeout args;
           arg_verbose := arg_verbose args;
           arg_output := webhook;
           arg_webhook := None;
           arg_threads := arg_threads args |}
  = (0, {| discovered := 0; errors := 0; sent := []; posted := [];
           debug_log := [];
           console :=
             [Text "Error: Webhook URL required when using webhook output format"] |}).
Proof. reflexivity. Qed.

(** The other configuration errors end the process with status 1. *)
Lemma main_services_not_found (w : world) (args : arguments) :
  services_json w = FileNotFound ->
  bool_decide (arg_output args = webhook) && negb (truthy (arg_webhook args)) = false ->
  fst (run w args) = 1 /\ sent (snd (run w args)) = [].
Proof.
  intros Hfile Hok. unfold run, main. rewrite Hok.
  unfold init, _load_services, mbind, M_bind. rewrite Hfile. by simpl.
Qed.

Lemma main_services_malformed (w : world) (args : arguments) :
  services_json w = JSONDecodeError ->
  bool_decide (arg_output args = webhook) && negb (truthy (arg_webhook args)) = false ->
  fst (run w args) = 1 /\ sent (snd (run w args)) = [].
Proof.
  intros Hfile Hok. unfold run, main. rewrite Hok.
  unfold init, _load_services, mbind, M_bind. rewrite Hfile. by simpl.
Qed.

Lemma main_no_matching_service (w : world) (args : arguments) (entries : list service) :
  services_json w = Loaded entries ->
  arg_service args <> "*" ->
  filter (fun s => matches_filter (arg_service args) s = true) entries = [] ->
  bool_decide (arg_output args = webhook) && negb (truthy (arg_webhook args)) = false ->
  fst (run w args) = 1 /\ sent (snd (run w args)) = [].
Proof.
  intros Hfile Hne Hnone Hok. unfold run, main. rewrite Hok.
  unfold init, _load_services, mbind, M_bind. rewrite Hfile.
  rewrite (bool_decide_eq_true_2 _ Hne), Hnone. by simpl.
Qed.

(** The scenario of the specification, run from the command line: of the 43
    hosts tried for [acme] one answers with the fingerprint, and the run
    reports that one result. *)
Example run_acme :
  let (status, st) := run Demo.server Demo.command_line in
  status = 0
  /\ length (sent st) = 43%nat
  /\ discovered st = 1%nat
  /\ errors st = 42%nat
  /\ console st
     = [ Printed (JsonArray
           [ {| r_timestamp := "2024-01-01T00:00:00";
                r_target := "acme";
                r_url := "https://acme-staging.example.com/login";
                r_exists := true;
                r_vulnerable := false;
                r_service := "Acme Tool";
                r_description := "Open registration on Acme Tool";
                r_reproduction_steps := ["Open the login page"];
                r_references := [];
                r_status_code := 200 |} ]) ].
Proof. vm_compute. repeat split; reflexivity. Qed.

(** * Further properties of the code *)

(** ** Batches *)

Lemma batches_go_sizes {A : Type} (size : nat) : forall (fuel : nat) (urls : list A),
  (1 <= size)%nat ->
  Forall (fun batch => (1 <= length batch <= size)%nat) (batches_go fuel size urls).
Proof.
  induction fuel as [|fuel IH]; intros urls Hsize; [ constructor | ].
  destruct urls as [|u urls]; [ constructor | ].
  change (batches_go (S fuel) size (u :: urls))
    with (take size (u :: urls) :: batches_go fuel size (drop size (u :: urls))).
  constructor; [ | by apply IH ].
  rewrite length_take. simpl. lia.
Qed.

(** X1.  The batches of [scan] cut the task list into consecutive pieces:
    put end to end they give the list back, and every batch holds at least
    one and at most ten tasks. *)
Theorem url_batches_partition {A : Type} (urls : list A) :
  concat (url_batches urls) = urls
  /\ Forall (fun batch => (1 <= length batch <= 10)%nat) (url_batches urls).
Proof.
  split; [ apply url_batches_concat | ].
  pose proof (batch_size_bounds (length urls)) as Hb.
  eapply Forall_impl; [ apply batches_go_sizes; lia | ].
  intros batch Hlen. simpl in Hlen. lia.
Qed.

Lemma for_each_app {A B : Type} (body : A -> M B) (l1 l2 : list A) : forall st,
  for_each body (l1 ++ l2) st
  = (fst (for_each body l1 st) ++ fst (for_each body l2 (snd (for_each body l1 st))),
     snd (for_each body l2 (snd (for_each body l1 st)))).
Proof.
  induction l1 as [|x l1 IH]; intros st.
  - simpl. by destruct (for_each body l2 st).
  - rewrite <- app_comm_cons, !for_each_cons.
    destruct (body x st) as [b st1]. rewrite IH.
    destruct (for_each body l1 st1) as [bs st2]. simpl.
    by destruct (for_each body l2 st2).
Qed.

(** The tasks of a scan all sleep for the same length: either every task
    raises before its request, or none does. *)
Lemma process_all (w : world) (self : MisconfigMapper)
    (tasks : list (string * service)) : forall st,
  for_each_try (process_url w self) tasks st
  = match delay_sleep w self, tasks with
    | Some e, _ :: _ => (inl (Error e), st)
    | _, _ => (inr (fst (for_each (probe_task w self) tasks st)),
               snd (for_each (probe_task w self) tasks st))
    end.
Proof.
  destruct (delay_sleep w self) as [e|] eqn:Hsleep.
  - intros st. destruct tasks as [|[url svc] tasks]; [ reflexivity | ].
    simpl. unfold mbind, M_bind, mret, M_ret. by rewrite Hsleep.
  - induction tasks as [|[url svc] tasks IH]; intros st.
    + by destruct (delay_sleep w self).
    + rewrite for_each_cons. simpl. unfold mbind, M_bind, mret, M_ret.
      rewrite Hsleep. unfold mbind, M_bind, mret, M_ret.
      change (probe_task w self (url, svc) st) with (_check_endpoint w self url svc st).
      destruct (_check_endpoint w self url svc st) as [b st1].
      rewrite IH. by destruct (for_each (probe_task w self) tasks st1).
Qed.

Lemma for_each_try_cons {A B : Type} (body : A -> M (raised + B)) (x : A)
    (rest : list A) (st : state) :
  for_each_try body (x :: rest) st
  = match body x st with
    | (inl e, st1) => (inl e, st1)
    | (inr b, st1) =>
        match for_each_try body rest st1 with
        | (inl e, st2) => (inl e, st2)
        | (inr bs, st2) => (inr (b :: bs), st2)
        end
    end.
Proof.
  simpl. unfold mbind, M_bind, mret, M_ret.
  destruct (body x st) as [[e|b] st1]; [ done | ].
  by destruct (for_each_try body rest st1) as [[e|bs] st2].
Qed.

(** One batch of [scan]'s loop. *)
Lemma batch_flat (w : world) (self : MisconfigMapper)
    (batch : list (string * service)) (st : state) :
  (batch_results ← for_each_try (process_url w self) batch;
   match batch_results with
   | inl e => mret (inl e)
   | inr rs => mret (inr (not_none rs))
   end) st
  = match delay_sleep w self, batch with
    | Some e, _ :: _ => (inl (Error e), st)
    | _, _ => (inr (not_none (fst (for_each (probe_task w self) batch st))),
               snd (for_each (probe_task w self) batch st))
    end.
Proof.
  unfold mbind, M_bind, mret, M_ret. rewrite process_all.
  destruct (delay_sleep w self) as [e|]; [ by destruct batch | done ].
Qed.

Lemma run_batches_flat (w : world) (self : MisconfigMapper)
    (bs : list (list (string * service))) : forall st,
  run_batches w self bs st
  = match delay_sleep w self, concat bs with
    | Some e, _ :: _ => (inl (Error e), st)
    | _, _ => (inr (not_none (fst (for_each (probe_task w self) (concat bs) st))),
               snd (for_each (probe_task w self) (concat bs) st))
    end.
Proof.
  unfold run_batches.
  set (body := fun batch : list (string * service) =>
                 batch_results ← for_each_try (process_url w self) batch;
                 match batch_results with
                 | inl e => mret (inl e)
                 | inr rs => mret (inr (not_none rs))
                 end).
  assert (forall batch st, body batch st
            = match delay_sleep w self, batch with
              | Some e, _ :: _ => (inl (Error e), st)
              | _, _ => (inr (not_none (fst (for_each (probe_task w self) batch st))),
                         snd (for_each (probe_task w self) batch st))
              end) as Hbody by (intros; apply batch_flat).
  clearbody body.
  destruct (delay_sleep w self) as [e|] eqn:Hsleep.
  - assert (forall st, for_each_try body bs st
              = match concat bs with
                | [] => (inr (map (fun _ => []) bs), st)
                | _ :: _ => (inl (Error e), st)
                end) as Hloop.
    { induction bs as [|batch bs IH]; intros st; [ reflexivity | ].
      rewrite for_each_try_cons, Hbody, concat_cons.
      destruct batch as [|t batch]; [ | reflexivity ].
      simpl. rewrite IH. by destruct (concat bs). }
    intros st. unfold mbind, M_bind, mret, M_ret. rewrite Hloop.
    destruct (concat bs) eqn:Hc; [ | reflexivity ].
    simpl. f_equal. f_equal. clear. induction bs; [ done | by simpl ].
  - assert (forall st,
              exists per_batch,
                for_each_try body bs st
                = (inr per_batch, snd (for_each (probe_task w self) (concat bs) st))
                /\ concat per_batch
                   = not_none (fst (for_each (probe_task w self) (concat bs) st)))
      as Hloop.
    { induction bs as [|batch bs IH]; intros st; [ by exists [] | ].
      rewrite for_each_try_cons, Hbody, concat_cons, for_each_app.
      destruct (IH (snd (for_each (probe_task w self) batch st)))
        as (per_batch & -> & Hconcat).
      eexists. split; [ reflexivity | ].
      simpl. unfold not_none in *. by rewrite omap_app, Hconcat. }
    intros st. unfold mbind, M_bind, mret, M_ret.
    destruct (Hloop st) as (per_batch & -> & Hconcat). by rewrite Hconcat.
Qed.

(** X2.  Cutting the tasks into batches changes nothing but the pace: the
    results and the final state of [scan]'s loop over the batches are those
    of probing the whole task list in one pass. *)
Theorem batching_is_transparent (w : world) (self : MisconfigMapper)
    (urls : list (string * service)) (st : state) :
  run_batches w self (url_batches urls) st = run_batches w self [urls] st.
Proof.
  rewrite !run_batches_flat, url_batches_concat. simpl. by rewrite app_nil_r.
Qed.

(** ** What a scan sends and counts *)

Section Accounting.

Context (w : world) (self : MisconfigMapper).

Lemma check_endpoint_accounting (url : string) (svc : service) (st : state) :
  let st' := snd (_check_endpoint w self url svc st) in
  sent st' = sent st ++ [probe_request self url svc]
  /\ errors st' = (errors st + if request_fails w self (url, svc) then 1 else 0)%nat
  /\ discovered st' = (discovered st + if task_found w self (url, svc) then 1 else 0)%nat
  /\ posted st' = posted st
  /\ console st' = console st.
Proof.
  unfold request_fails, task_found. simpl.
  destruct (http w (probe_request self url svc)) as [status_code text|e] eqn:H.
  - rewrite (check_endpoint_responded _ _ _ _ _ _ _ H).
    destruct (probe_exists svc text) eqn:He; simpl.
    + repeat split; lia.
    + destruct (probe_vulnerable self svc status_code text) eqn:Hv.
      * apply probe_vulnerable_exists in Hv. congruence.
      * simpl. repeat split; lia.
  - rewrite (check_endpoint_failed _ _ _ _ _ _ H). simpl. repeat split; lia.
Qed.

Lemma probe_all_accounting (tasks : list (string * service)) : forall st,
  let st' := snd (for_each (probe_task w self) tasks st) in
  sent st' = sent st ++ map (task_request self) tasks
  /\ errors st' = (errors st + length (List.filter (request_fails w self) tasks))%nat
  /\ discovered st' = (discovered st + length (List.filter (task_found w self) tasks))%nat
  /\ posted st' = posted st
  /\ console st' = console st.
Proof.
  induction tasks as [|[url svc] tasks IH]; intros st.
  - simpl. rewrite app_nil_r. repeat split; lia.
  - rewrite for_each_cons.
    change (probe_task w self (url, svc) st) with (_check_endpoint w self url svc st).
    destruct (check_endpoint_accounting url svc st) as (Hs & He & Hd & Hp & Hc).
    destruct (_check_endpoint w self url svc st) as [b st1]. simpl in Hs, He, Hd, Hp, Hc.
    destruct (IH st1) as (Hs' & He' & Hd' & Hp' & Hc').
    destruct (for_each (probe_task w self) tasks st1) as [bs st2].
    simpl in *. rewrite Hs', He', Hd', Hp', Hc', Hs, He, Hd, Hp, Hc.
    rewrite <- app_assoc. simpl.
    destruct (request_fails w self (url, svc)), (task_found w self (url, svc));
      simpl; repeat split; lia.
Qed.



End Accounting.

(** [scan] with the loop over the batches worked out: the pool is refused,
    or the first task raises in its sleep, or every task is probed and the
    results are put out. *)
Lemma scan_unfold (w : world) (self : MisconfigMapper) (st : state) :
  scan w self st
  = let tasks := expand_all (services self) (generate_permutations (target self)) in
    let st0 := if verbose self then snd (logging_debug "Generated URLs to test" st)
               else st in
    let rr := (not_none (fst (for_each (probe_task w self) tasks st0)),
               snd (for_each (probe_task w self) tasks st0)) in
    if threads self <=? 0
    then (inl (Error (ValueError "max_workers must be greater than 0")), st0)
    else
      match delay_sleep w self, tasks with
      | Some e, _ :: _ => (inl (Error e), st0)
      | _, _ =>
          (inr tt,
           snd (match output_format self with
                | table => _display_table (fst rr) (snd rr)
                | _ =>
                    let fo := _format_output w self (fst rr) (snd rr) in
                    match fst fo with
                    | Some f => console_print (Printed f) (snd fo)
                    | None => (tt, snd fo)
                    end
                end))
      end.
Proof.
  unfold scan, generate_urls, mbind, M_bind, mret, M_ret. cbv zeta.
  set (tasks := expand_all (services self) (generate_permutations (target self))).
  assert (forall st0,
            (let (a, st') :=
               let (_, st'0) := ((), st0) : unit * state in (tasks, st'0) in
             (if threads self <=? 0
              then fun st1 =>
                     (inl (Error (ValueError "max_workers must be greater than 0")), st1)
              else fun st1 =>
                     let (a0, st'0) := run_batches w self (url_batches a) st1 in
                     match a0 with
                     | inl e => fun st2 => (inl e, st2)
                     | inr results => fun st2 =>
                         let (_, st'1) :=
                           match output_format self with
                           | table => _display_table results
                           | _ => fun st3 =>
                               let (a1, st'1) := _format_output w self results st3 in
                               match a1 with
                               | Some f => console_print (Printed f)
                               | None => fun st4 => ((), st4)
                               end st'1
                           end st2 in
                         (inr (), st'1)
                     end st'0) st')
            = (if threads self <=? 0
               then (inl (Error (ValueError "max_workers must be greater than 0")), st0)
               else
                 match delay_sleep w self, tasks with
                 | Some e, _ :: _ => (inl (Error e), st0)
                 | _, _ =>
                     (inr tt,
                      snd (match output_format self with
                           | table =>
                               _display_table
                                 (not_none (fst (for_each (probe_task w self) tasks st0)))
                                 (snd (for_each (probe_task w self) tasks st0))
                           | _ =>
                               let fo := _format_output w self
                                 (not_none (fst (for_each (probe_task w self) tasks st0)))
                                 (snd (for_each (probe_task w self) tasks st0)) in
                               match fst fo with
                               | Some f => console_print (Printed f) (snd fo)
                               | None => (tt, snd fo)
                               end
                           end))
                 end)) as Hgo.
  { intros st0. destruct (threads self <=? 0); [ reflexivity | ].
    rewrite run_batches_flat, url_batches_concat.
    destruct (delay_sleep w self) as [e|]; [ destruct tasks as [|t tasks'] | ];
      try reflexivity;
      (destruct (output_format self);
       [ by destruct (_display_table _ _) | | | | ];
       by destruct (_format_output w self _ _) as [[f|] st2]). }
  destruct (verbose self); apply Hgo.
Qed.

(** The part of [scan_unfold] for a scan whose pool starts and whose sleeps
    return. *)
Lemma scan_runs (w : world) (self : MisconfigMapper) (st : state) :
  scan_can_run w self ->
  fst (scan w self st) = inr tt
  /\ snd (scan w self st)
     = let tasks := expand_all (services self) (generate_permutations (target self)) in
       let st0 := if verbose self then snd (logging_debug "Generated URLs to test" st)
                  else st in
       let rr := (not_none (fst (for_each (probe_task w self) tasks st0)),
                  snd (for_each (probe_task w self) tasks st0)) in
       snd (match output_format self with
            | table => _display_table (fst rr) (snd rr)
            | _ =>
                let fo := _format_output w self (fst rr) (snd rr) in
                match fst fo with
                | Some f => console_print (Printed f) (snd fo)
                | None => (tt, snd fo)
                end
            end).
Proof.
  intros [Hthreads Hsleep]. rewrite scan_unfold. cbv zeta.
  rewrite Hsleep. by rewrite (proj2 (Z.leb_gt _ _) Hthreads).
Qed.



(** X4.  Every result that [scan]'s loop collects has [exists] set, is not
    vulnerable when skip-checks is on, and reports the URL that was
    requested for one of the tasks together with that task's service
    name.  The loop collects its results unless the sleep before a probe
    raises. *)
Theorem collected_results_exist (w : world) (self : MisconfigMapper)
    (tasks : list (string * service)) (st : state) :
  match fst (run_batches w self (url_batches tasks) st) with
  | inr results =>
      Forall (fun r =>
                r_exists r = true
                /\ (skip_checks self = true -> r_vulnerable r = false)
                /\ exists task, task ∈ tasks
                     /\ r_url r = req_url (task_request self task)
                     /\ r_target r = target self
                     /\ r_service r = serviceName (metadata task.2))
             results
  | inl _ => delay_sleep w self <> None
  end.
Proof.
  rewrite run_batches_flat, url_batches_concat.
  assert (Forall (fun r =>
                r_exists r = true
                /\ (skip_checks self = true -> r_vulnerable r = false)
                /\ exists task, task ∈ tasks
                     /\ r_url r = req_url (task_request self task)
                     /\ r_target r = target self
                     /\ r_service r = serviceName (metadata task.2))
            (not_none (fst (for_each (probe_task w self) tasks st)))) as Hall;
    [ | destruct (delay_sleep w self) as [e|]; [ destruct tasks | ]; done ].
  revert st.
  induction tasks as [|[url svc] tasks IH]; intros st; [ constructor | ].
  rewrite for_each_cons.
  change (probe_task w self (url, svc) st) with (_check_endpoint w self url svc st).
  assert (match fst (_check_endpoint w self url svc st) with
          | Some r => r_exists r = true
                      /\ (skip_checks self = true -> r_vulnerable r = false)
                      /\ r_url r = req_url (task_request self (url, svc))
                      /\ r_target r = target self
                      /\ r_service r = serviceName (metadata svc)
          | None => True
          end) as Hhead.
  { destruct (http w (probe_request self url svc)) as [status_code text|e] eqn:H.
    - rewrite (check_endpoint_responded _ _ _ _ _ _ _ H).
      destruct (probe_exists svc text) eqn:He; simpl.
      + repeat split; try done. intros Hskip. unfold probe_vulnerable. by rewrite Hskip.
      + destruct (probe_vulnerable self svc status_code text) eqn:Hv; [ | done ].
        apply probe_vulnerable_exists in Hv. congruence.
    - by rewrite (check_endpoint_failed _ _ _ _ _ _ H). }
  destruct (_check_endpoint w self url svc st) as [b st1].
  specialize (IH st1).
  destruct (for_each (probe_task w self) tasks st1) as [bs st2]. simpl in *.
  assert (Forall (fun r =>
            r_exists r = true
            /\ (skip_checks self = true -> r_vulnerable r = false)
            /\ exists task, task ∈ (url, svc) :: tasks
                 /\ r_url r = req_url (task_request self task)
                 /\ r_target r = target self
                 /\ r_service r = serviceName (metadata task.2))
          (not_none bs)) as Htail.
  { eapply Forall_impl; [ exact IH | ].
    intros r (H1 & H2 & task & Hin & H3). repeat split; try done.
    exists task. split; [ by right | done ]. }
  destruct b as [r|]; simpl; [ | exact Htail ].
  constructor; [ | exact Htail ].
  destruct Hhead as (H1 & H2 & H3 & H4 & H5). repeat split; try done.
  exists (url, svc). split; [ left | done ].
Qed.

(** ** White space and case *)

Section Whitespace.

Import PyStr.

Implicit Types (s t : string) (a c : ascii).

Lemma lstrip_ws_head s :
  match lstrip_ws s with
  | EmptyString => True
  | String a _ => isspace a = false
  end.
Proof.
  induction s as [|a s IH]; simpl; [ done | ].
  destruct (isspace a) eqn:E; [ exact IH | exact E ].
Qed.

Lemma lstrip_ws_fixed s :
  match s with EmptyString => True | String a _ => isspace a = false end ->
  lstrip_ws s = s.
Proof. destruct s as [|a s]; simpl; [ done | by intros -> ]. Qed.

Lemma rstrip_ws_head s :
  match s with EmptyString => True | String a _ => isspace a = false end ->
  match rstrip_ws s with EmptyString => True | String a _ => isspace a = false end.
Proof.
  destruct s as [|a s]; simpl; [ done | ]. intros Ha.
  destruct (rstrip_ws s); [ by rewrite Ha | done ].
Qed.

Lemma rstrip_ws_idempotent s : rstrip_ws (rstrip_ws s) = rstrip_ws s.
Proof.
  induction s as [|a s IH]; simpl; [ done | ].
  destruct (rstrip_ws s) as [|b t] eqn:E.
  - destruct (isspace a) eqn:Ha; simpl; [ done | by rewrite Ha ].
  - change (rstrip_ws (String a (String b t)))
      with (match rstrip_ws (String b t) with
            | EmptyString => if isspace a then EmptyString else String a EmptyString
            | String _ _ as u => String a u
            end).
    by rewrite IH.
Qed.

Lemma strip_idempotent s : strip (strip s) = strip s.
Proof.
  unfold strip.
  rewrite (lstrip_ws_fixed (rstrip_ws (lstrip_ws s)))
    by apply rstrip_ws_head, lstrip_ws_head.
  apply rstrip_ws_idempotent.
Qed.

Lemma lstrip_ws_mem c s : mem_char c (lstrip_ws s) = true -> mem_char c s = true.
Proof.
  induction s as [|a s IH]; simpl; [ done | ].
  destruct (isspace a); [ | done ].
  intros H. rewrite (IH H). apply orb_true_r.
Qed.

Lemma rstrip_ws_mem c s : mem_char c (rstrip_ws s) = true -> mem_char c s = true.
Proof.
  induction s as [|a s IH]; simpl; [ done | ].
  destruct (rstrip_ws s) as [|b t].
  - destruct (isspace a); simpl; [ done | ].
    rewrite orb_false_r. by intros ->.
  - change (mem_char c (String a (String b t)))
      with (Ascii.eqb a c || mem_char c (String b t)).
    destruct (Ascii.eqb a c); [ done | ]. simpl. exact IH.
Qed.

Lemma strip_mem c s : mem_char c (strip s) = true -> mem_char c s = true.
Proof. intros H. by apply lstrip_ws_mem, rstrip_ws_mem. Qed.

Lemma split_once_spec c s :
  match split_once c s with
  | Some (k, v) => s = k +:+ String c v /\ mem_char c k = false
  | None => mem_char c s = false
  end.
Proof.
  induction s as [|a s IH]; simpl; [ done | ].
  destruct (Ascii.eqb_spec a c) as [->|Hne]; [ done | ].
  destruct (split_once c s) as [[k v]|]; simpl.
  - destruct IH as [-> Hk]. split; [ done | ].
    simpl. rewrite Hk. by destruct (Ascii.eqb_spec a c).
  - exact IH.
Qed.

Lemma isspace_lower_char a : isspace (lower_char a) = isspace a.
Proof. destruct a as [[] [] [] [] [] [] [] []]; reflexivity. Qed.

Lemma lower_char_idempotent a : lower_char (lower_char a) = lower_char a.
Proof. destruct a as [[] [] [] [] [] [] [] []]; reflexivity. Qed.

Lemma lower_idempotent s : lower (lower s) = lower s.
Proof.
  induction s as [|a s IH]; simpl; [ done | ].
  by rewrite lower_char_idempotent, IH.
Qed.

Lemma lower_lstrip_ws s : lower (lstrip_ws s) = lstrip_ws (lower s).
Proof.
  induction s as [|a s IH]; simpl; [ done | ].
  rewrite isspace_lower_char. by destruct (isspace a).
Qed.

Lemma lower_rstrip_ws s : lower (rstrip_ws s) = rstrip_ws (lower s).
Proof.
  induction s as [|a s IH]; simpl; [ done | ].
  rewrite <- IH, isspace_lower_char.
  destruct (rstrip_ws s); simpl; [ by destruct (isspace a) | done ].
Qed.

Lemma lower_strip s : lower (strip s) = strip (lower s).
Proof. unfold strip. by rewrite lower_rstrip_ws, lower_lstrip_ws. Qed.

End Whitespace.

(** ** Header parsing *)

Section Headers.

Implicit Types (m : gmap string string) (h key value : string).

Let well_formed m : Prop :=
  forall key value, m !! key = Some value ->
    stripped key /\ stripped value /\ PyStr.mem_char ":" key = false.

Lemma parse_header_well_formed m h : well_formed m -> well_formed (parse_header m h).
Proof.
  intros Hm. unfold parse_header.
  pose proof (split_once_spec ":" h) as Hsplit.
  destruct (PyStr.split_once ":" h) as [[k v]|]; [ | exact Hm ].
  destruct Hsplit as [_ Hk].
  intros key value. rewrite lookup_insert. case_decide as Heq.
  - intros [= <-]. subst key. unfold stripped.
    split; [ apply strip_idempotent | ]. split; [ apply strip_idempotent | ].
    destruct (PyStr.mem_char ":" (PyStr.strip k)) eqn:E; [ | done ].
    apply strip_mem in E. congruence.
  - apply Hm.
Qed.

Lemma parse_headers_fold_well_formed (pieces : list string) : forall m,
  well_formed m -> well_formed (foldl parse_header m pieces).
Proof.
  induction pieces as [|h pieces IH]; intros m Hm; [ exact Hm | ].
  simpl. by apply IH, parse_header_well_formed.
Qed.

Lemma parse_headers_well_formed (headers_str : option string) :
  well_formed (_parse_headers headers_str).
Proof.
  unfold _parse_headers. destruct (negb (truthy headers_str)).
  - intros key value H. by rewrite lookup_empty in H.
  - apply parse_headers_fold_well_formed.
    intros key value H. by rewrite lookup_empty in H.
Qed.

Lemma mem_char_app c (s t : string) :
  PyStr.mem_char c (s +:+ t) = PyStr.mem_char c s || PyStr.mem_char c t.
Proof.
  induction s as [|a s IH]; simpl; [ done | ]. by rewrite IH, orb_assoc.
Qed.

Lemma split_go_mem c sep (s : string) : forall skip cur,
  PyStr.mem_char c cur = false -> PyStr.mem_char c s = false ->
  Forall (fun piece => PyStr.mem_char c piece = false) (PyStr.split_go sep skip cur s).
Proof.
  induction s as [|a s IH]; intros skip cur Hcur Hs; simpl.
  - by constructor.
  - simpl in Hs. apply orb_false_iff in Hs as [Ha Hs].
    destruct skip as [|k]; [ | by apply IH ].
    destruct (PyStr.startswith sep (String a s)).
    + constructor; [ done | by apply IH ].
    + apply IH; [ | done ]. rewrite mem_char_app. simpl. by rewrite Hcur, Ha.
Qed.

Lemma parse_header_no_colon m h :
  PyStr.mem_char ":" h = false -> parse_header m h = m.
Proof.
  intros Hh. unfold parse_header.
  pose proof (split_once_spec ":" h) as Hsplit.
  destruct (PyStr.split_once ":" h) as [[k v]|]; [ | done ].
  destruct Hsplit as [-> _]. rewrite mem_char_app in Hh. simpl in Hh.
  by rewrite orb_true_r in Hh.
Qed.

End Headers.

(** X5.  Every header that [_parse_headers] yields has a name and a value
    without white space at either end, and a name without a colon: a
    header is split at its first colon only. *)
Theorem parse_headers_entries_stripped (headers_str : option string)
    (key value : string) :
  _parse_headers headers_str !! key = Some value ->
  stripped key /\ stripped value /\ PyStr.mem_char ":" key = false.
Proof. apply parse_headers_well_formed. Qed.

Lemma parse_headers_entries_stripped_witness :
  _parse_headers (Some " X-Scan : a:b ;; Accept: */*") !! "X-Scan" = Some "a:b"
  /\ (stripped "X-Scan" /\ stripped "a:b" /\ PyStr.mem_char ":" "X-Scan" = false).
Proof.
  split; [ vm_compute; reflexivity | ].
  apply (parse_headers_entries_stripped (Some " X-Scan : a:b ;; Accept: */*")).
  vm_compute. reflexivity.
Defined.

(** X6.  A header string in which no colon occurs yields no header at all:
    its pieces are passed over without an error. *)
Theorem parse_headers_without_colon (s : string) :
  PyStr.mem_char ":" s = false -> _parse_headers (Some s) = ∅.
Proof.
  intros Hs. unfold _parse_headers.
  destruct (negb (truthy (Some s))); [ done | ]. simpl.
  pose proof (split_go_mem ":" ";;" s 0 "" eq_refl Hs) as Hall.
  fold (PyStr.split ";;" s) in Hall.
  induction Hall as [|h pieces Hh _ IH]; [ done | ].
  simpl. by rewrite parse_header_no_colon.
Qed.

Lemma parse_headers_without_colon_witness :
  PyStr.mem_char ":" "Accept=text/html;;X-Scan" = false
  /\ _parse_headers (Some "Accept=text/html;;X-Scan") = ∅.
Proof.
  split; [ reflexivity | ].
  apply (parse_headers_without_colon "Accept=text/html;;X-Scan"). reflexivity.
Defined.

(** ** Construction of the scanner *)

Lemma init_inr (w : world) (args : arguments) (st st' : state) (self : MisconfigMapper) :
  init w args st = (inr self, st') ->
  exists svcs,
    _load_services w (arg_service args) (arg_verbose args) st = (inr svcs, st')
    /\ target self = PyStr.strip (PyStr.lower (arg_target args))
    /\ services self = svcs
    /\ headers self
       = if bool_decide ("User-Agent" ∈ dom (_parse_headers (arg_headers args)))
         then _parse_headers (arg_headers args)
         else <[ "User-Agent" :=
                   nth (user_agent_pick w `mod` length USER_AGENTS) USER_AGENTS "" ]>
                (_parse_headers (arg_headers args)).
Proof.
  unfold init, mbind, M_bind, mret, M_ret.
  destruct (_load_services w (arg_service args) (arg_verbose args) st)
    as [[exit|svcs] st1]; [ discriminate | ].
  intros [= <- <-]. by exists svcs.
Qed.

(** X7.  A scanner that [__init__] builds always has a [User-Agent] header:
    the one given on the command line when there is one, else one of the
    three of [USER_AGENTS]; the other headers are those of the command
    line; and every request of this scanner carries a [User-Agent]. *)
Theorem init_user_agent (w : world) (args : arguments) (st st' : state)
    (self : MisconfigMapper) :
  init w args st = (inr self, st') ->
  (exists ua, headers self !! "User-Agent" = Some ua
     /\ match _parse_headers (arg_headers args) !! "User-Agent" with
        | Some given => ua = given
        | None => ua ∈ USER_AGENTS
        end)
  /\ (forall key, key <> "User-Agent" ->
        headers self !! key = _parse_headers (arg_headers args) !! key)
  /\ (forall url svc,
        is_Some (req_headers (probe_request self url svc) !! "User-Agent")).
Proof.
  intros H. apply init_inr in H as (svcs & _ & _ & _ & Hh).
  assert (exists ua, headers self !! "User-Agent" = Some ua
     /\ match _parse_headers (arg_headers args) !! "User-Agent" with
        | Some given => ua = given
        | None => ua ∈ USER_AGENTS
        end) as Hua.
  { rewrite Hh. case_bool_decide as Hin.
    - apply elem_of_dom in Hin as [given Hg]. exists given. by rewrite Hg.
    - apply not_elem_of_dom in Hin. rewrite Hin, lookup_insert_eq.
      eexists. split; [ reflexivity | ].
      apply list_elem_of_In, nth_In, Nat.mod_upper_bound. simpl. lia. }
  split; [ exact Hua | ]. split.
  - intros key Hne. rewrite Hh. case_bool_decide; [ done | ].
    by rewrite lookup_insert_ne.
  - intros url svc. destruct Hua as (ua & Hua & _).
    simpl. unfold merge_headers. rewrite lookup_union, Hua.
    by destruct (default ∅ (template_headers (request svc)) !! "User-Agent").
Qed.

Lemma init_user_agent_witness :
  init Demo.server Demo.command_line initial_state = (inr sample_scanner, initial_state)
  /\ exists ua, headers sample_scanner !! "User-Agent" = Some ua
       /\ match _parse_headers (arg_headers Demo.command_line) !! "User-Agent" with
          | Some given => ua = given
          | None => ua ∈ USER_AGENTS
          end.
Proof.
  split; [ vm_compute; reflexivity | ].
  apply (init_user_agent Demo.server Demo.command_line initial_state initial_state).
  vm_compute. reflexivity.
Defined.

(** X8.  The target of a scanner that [__init__] builds is the command-line
    target in lower case without surrounding white space; it is unchanged
    by a further [lower()] or [strip()]. *)
Theorem init_target_normalized (w : world) (args : arguments) (st st' : state)
    (self : MisconfigMapper) :
  init w args st = (inr self, st') ->
  target self = PyStr.strip (PyStr.lower (arg_target args))
  /\ PyStr.strip (target self) = target self
  /\ PyStr.lower (target self) = target self.
Proof.
  intros H. apply init_inr in H as (svcs & _ & -> & _).
  split; [ done | ]. split; [ apply strip_idempotent | ].
  by rewrite lower_strip, lower_idempotent.
Qed.

Lemma init_target_normalized_witness :
  init Demo.server Demo.command_line initial_state = (inr sample_scanner, initial_state)
  /\ target sample_scanner = "acme".
Proof.
  split; [ vm_compute; reflexivity | ].
  rewrite (proj1 (init_target_normalized Demo.server Demo.command_line
                    initial_state initial_state sample_scanner
                    ltac:(vm_compute; reflexivity))).
  reflexivity.
Defined.

(** ** Template loading and exit status *)

(** X9.  When [_load_services] returns, the template file was read, and the
    templates returned are entries of the file in file order: all of them
    for the filter [*] (even none, for an empty file), and otherwise the
    entries whose id or metadata service equals the filter, of which there
    is at least one.  Nothing is sent or printed. *)
Theorem load_services_filter (w : world) (wanted : string) (verbose_ : bool)
    (st st' : state) (svcs : list service) :
  _load_services w wanted verbose_ st = (inr svcs, st') ->
  exists entries,
    services_json w = Loaded entries
    /\ svcs `sublist_of` entries
    /\ (wanted = "*" -> svcs = entries)
    /\ (wanted <> "*" ->
          svcs <> []
          /\ forall s, s ∈ svcs
               <-> s ∈ entries
                   /\ (template_id s = wanted \/ meta_service (metadata s) = Some wanted))
    /\ sent st' = sent st
    /\ console st' = console st.
Proof.
  unfold _load_services, mbind, M_bind, mret, M_ret, console_print, logging_debug, modify.
  destruct (services_json w) as [| |e|entries];
    [ discriminate | discriminate | discriminate | ].
  intros H. exists entries. split; [ done | ].
  case_bool_decide as Hw.
  - simpl in H. case_bool_decide as Hnil; [ discriminate | ].
    assert (svcs = filter (fun s => matches_filter wanted s = true) entries
            /\ sent st' = sent st /\ console st' = console st) as (-> & Hs & Hc).
    { destruct verbose_; simpl in H; by injection H as <- <-. }
    split; [ apply sublist_filter | ]. split; [ done | ].
    split; [ | done ]. intros _. split; [ done | ].
    intros s. rewrite list_elem_of_filter. unfold matches_filter.
    rewrite orb_true_iff, !bool_decide_eq_true. tauto.
  - simpl in H.
    assert (svcs = entries /\ sent st' = sent st /\ console st' = console st)
      as (-> & Hs & Hc).
    { destruct verbose_; simpl in H; by injection H as <- <-. }
    split; [ done | ]. split; [ done | ]. split; [ done | done ].
Qed.

Lemma load_services_filter_witness :
  _load_services Demo.server "acmetool" false initial_state
  = (inr [Demo.acme_tool], initial_state)
  /\ exists entries,
       services_json Demo.server = Loaded entries
       /\ [Demo.acme_tool] `sublist_of` entries.
Proof.
  split; [ vm_compute; reflexivity | ].
  destruct (load_services_filter Demo.server "acmetool" false initial_state
              initial_state [Demo.acme_tool] ltac:(vm_compute; reflexivity))
    as (entries & H1 & H2 & _).
  by exists entries.
Defined.






(** ** Number of tasks *)

Lemma bind_length_uniform {A B : Type} (f : A -> list B) (n : nat) (l : list A) :
  (forall x, length (f x) = n) -> length (l ≫= f) = (length l * n)%nat.
Proof.
  intros Hf. induction l as [|x l IH]; [ done | ].
  rewrite bind_cons, length_app, IH, Hf. simpl. lia.
Qed.

Lemma expand_all_length (svcs : list service) (permutations : list string) :
  length (expand_all svcs permutations) = (length permutations * total_paths svcs)%nat.
Proof.
  unfold expand_all. induction svcs as [|svc svcs IH]; [ simpl; lia | ].
  rewrite bind_cons, length_app, IH. simpl.
  rewrite (bind_length_uniform _ (length (path (request svc)))); [ lia | ].
  intros domain. rewrite (bind_length_uniform _ 1%nat); [ lia | done ].
Qed.

(** X11.  [generate_urls] makes one task for every template, permutation
    and path of the template: their number is the number of permutations
    times the number of paths of all templates, hence at most 43 per
    path. *)
Theorem tasks_count (self : MisconfigMapper) (st : state) :
  length (fst (generate_urls self st))
  = (length (generate_permutations (target self)) * total_paths (services self))%nat
  /\ (length (fst (generate_urls self st)) <= 43 * total_paths (services self))%nat.
Proof.
  assert (fst (generate_urls self st)
          = expand_all (services self) (generate_permutations (target self))) as ->.
  { unfold generate_urls, mbind, M_bind, mret, M_ret, logging_debug, modify.
    by destruct (verbose self). }
  rewrite expand_all_length. split; [ done | ].
  pose proof (generate_permutations_length (target self)) as H43.
  apply Nat.mul_le_mono_r. lia.
Qed.

(** ** Shape of the permutations *)

Lemma no_space_app (s t : string) : no_space (s +:+ t) = no_space s && no_space t.
Proof.
  induction s as [|a s IH]; simpl; [ done | ]. by rewrite IH, andb_assoc.
Qed.

Lemma length_app_s (s t : string) :
  String.length (s +:+ t) = (String.length s + String.length t)%nat.
Proof. induction s as [|a s IH]; simpl; [ done | by rewrite IH ]. Qed.

Lemma affixes_short :
  Forall (fun a => (String.length a <= 8)%nat /\ no_space a = true) (SUFFIXES ++ PREFIXES).
Proof. repeat (constructor; [ split; [ simpl; lia | reflexivity ] | ]). constructor. Qed.

Lemma candidates_shape (B x : string) :
  x ∈ candidates B ->
  exists pre post,
    x = pre +:+ B +:+ post
    /\ (String.length pre + String.length post <= 9)%nat
    /\ no_space pre = true /\ no_space post = true.
Proof.
  pose proof affixes_short as Haff. rewrite Forall_forall in Haff.
  unfold candidates. rewrite list_elem_of_In. intros [<-|H].
  { exists "", "". rewrite app_empty_r. simpl. repeat split; lia. }
  apply in_app_or in H as [H|H]; apply in_flat_map in H as (a & Ha & Hx);
    apply list_elem_of_In in Ha.
  - destruct (Haff a) as [Hlen Hsp]; [ apply elem_of_app; by left | ].
    simpl in Hx. destruct Hx as [<-|[<-|[]]].
    + exists "", ("-" +:+ a). simpl. rewrite Hsp. repeat split; lia.
    + exists "", ("." +:+ a). simpl. rewrite Hsp. repeat split; lia.
  - destruct (Haff a) as [Hlen Hsp]; [ apply elem_of_app; by right | ].
    simpl in Hx. destruct Hx as [<-|[<-|[]]].
    + exists a, "". rewrite app_empty_r. simpl. repeat split; try done; lia.
    + exists (a +:+ "."), "". rewrite app_empty_r, app_assoc_s, no_space_app, length_app_s.
      simpl. rewrite Hsp. repeat split; lia.
Qed.

(** X12.  Every permutation contains the base name, is at most nine
    characters longer, and holds no white space when the base name holds
    none. *)
Theorem permutations_contain_base (B x : string) :
  x ∈ generate_permutations B ->
  PyStr.contains B x = true
  /\ (String.length B <= String.length x <= String.length B + 9)%nat
  /\ (no_space B = true -> no_space x = true).
Proof.
  intros H. apply generate_permutations_elem, candidates_shape in H
    as (pre & post & -> & Hlen & Hpre & Hpost).
  split; [ apply contains_spec; eauto | ].
  rewrite !length_app_s, !no_space_app, Hpre, Hpost.
  split; [ lia | ]. by intros ->.
Qed.

Lemma permutations_contain_base_witness :
  "staging.acme" ∈ generate_permutations "acme"
  /\ PyStr.contains "acme" "staging.acme" = true.
Proof.
  assert ("staging.acme" ∈ generate_permutations "acme") as H.
  { apply generate_permutations_elem. unfold candidates.
    apply list_elem_of_In. vm_compute. tauto. }
  split; [ exact H | ].
  exact (proj1 (permutations_contain_base "acme" "staging.acme" H)).
Defined.

(** ** Scheme of the generated URLs *)

Lemma rstrip_times (c : ascii) (n : nat) : PyStr.rstrip c (PyStr.times c n) = "".
Proof.
  induction n as [|n IH]; simpl; [ done | ]. rewrite IH. by rewrite Ascii.eqb_refl.
Qed.

Lemma rstrip_empty_times (c : ascii) (s : string) :
  PyStr.rstrip c s = "" -> exists n, s = PyStr.times c n.
Proof.
  intros H. destruct (rstrip_spec c s) as (n & Hn & _). exists n.
  by rewrite H in Hn.
Qed.

(** What [join_path] makes of a URL that has a scheme, by what follows the
    scheme. *)
Lemma join_path_scheme (scheme t p : string) :
  scheme = "http" \/ scheme = "https" ->
  join_path (scheme +:+ "://" +:+ t) p
  = match PyStr.rstrip "/" t with
    | EmptyString => scheme +:+ ":/" +:+ PyStr.lstrip "/" p
    | String _ _ as host => scheme +:+ "://" +:+ host +:+ "/" +:+ PyStr.lstrip "/" p
    end.
Proof.
  intros [->| ->]; unfold join_path; simpl;
    destruct (PyStr.rstrip "/" t) as [|a host]; reflexivity.
Qed.

Lemma broken_scheme (rest : string) :
  PyStr.startswith "/" rest = false ->
  has_scheme ("http:/" +:+ rest) = false /\ has_scheme ("https:/" +:+ rest) = false.
Proof.
  intros H.
  assert (has_scheme ("http:/" +:+ rest) = PyStr.startswith "/" rest || false) as ->
    by reflexivity.
  assert (has_scheme ("https:/" +:+ rest) = false || PyStr.startswith "/" rest) as ->
    by reflexivity.
  by rewrite H.
Qed.

(** X13.  A generated URL always begins with [http:] or [https:].  It
    begins with the full [http://] or [https://] unless the base URL, after
    substitution and with its scheme, is nothing but the scheme and
    slashes (as for an empty base URL); the URL is then [http:/] or
    [https:/] followed by the path. *)
Theorem expand_url_scheme_kept (base domain p : string) :
  let url := with_scheme (PyStr.replace TARGET domain base) in
  (PyStr.startswith "http:" (expand_url base domain p) = true
   \/ PyStr.startswith "https:" (expand_url base domain p) = true)
  /\ (has_scheme (expand_url base domain p) = false
      <-> exists n, url = "http://" +:+ PyStr.times "/" n
                    \/ url = "https://" +:+ PyStr.times "/" n).
Proof.
  intros url. unfold expand_url.
  change (with_scheme (PyStr.replace TARGET domain base)) with url.
  assert (has_scheme url = true) as Hs by apply with_scheme_has_scheme.
  clearbody url.
  unfold has_scheme in Hs. apply orb_true_iff in Hs.
  assert (exists scheme t, (scheme = "http" \/ scheme = "https")
                           /\ url = scheme +:+ "://" +:+ t) as (scheme & t & Hsch & ->).
  { destruct Hs as [H|H]; apply startswith_spec in H as [t ->].
    - exists "http", t. split; [ by left | done ].
    - exists "https", t. split; [ by right | done ]. }
  rewrite (join_path_scheme scheme t p Hsch).
  destruct (lstrip_spec "/" p) as (m & _ & Hrest).
  set (rest := PyStr.lstrip "/" p) in *. clearbody rest.
  destruct (PyStr.rstrip "/" t) as [|a host] eqn:E.
  - apply rstrip_empty_times in E as [n ->].
    destruct (broken_scheme rest Hrest) as [Hhttp Hhttps].
    destruct Hsch as [-> | ->].
    + change ("http" +:+ ":/" +:+ rest) with ("http:/" +:+ rest). rewrite Hhttp.
      split; [ by left | ]. split; [ intros _; exists n; by left | done ].
    + change ("https" +:+ ":/" +:+ rest) with ("https:/" +:+ rest). rewrite Hhttps.
      split; [ by right | ]. split; [ intros _; exists n; by right | done ].
  - assert (forall n, t <> PyStr.times "/" n) as Hne.
    { intros n ->. by rewrite rstrip_times in E. }
    destruct Hsch as [-> | ->]; simpl.
    + split; [ by left | ]. split; [ done | ].
      intros [n [H|H]]; [ | discriminate ].
      injection H as H. by apply Hne in H.
    + split; [ by right | ]. split; [ done | ].
      intros [n [H|H]]; [ discriminate | ].
      injection H as H. by apply Hne in H.
Qed.

Example expand_url_empty_base : expand_url "" "acme" "/login" = "https:/login".
Proof. reflexivity. Qed.

(** ** More on the table view *)

Lemma first_seen_id (results : list ProbeResult) : forall seen : gset (string * string),
  NoDup (map result_key results) ->
  (forall r, r ∈ results -> result_key r ∉ seen) ->
  first_seen seen results = results.
Proof.
  induction results as [|r rest IH]; intros seen Hnd Hfresh; [ done | ].
  simpl in *. apply NoDup_cons in Hnd as [Hr Hnd].
  rewrite decide_False by (apply Hfresh; left). f_equal.
  apply IH; [ done | ]. intros r' Hr'.
  intros [Hk|Hk]%elem_of_union.
  - apply elem_of_singleton in Hk. apply Hr. rewrite <- Hk.
    apply list_elem_of_In, in_map, list_elem_of_In, Hr'.
  - by apply (Hfresh r'); [ right | ].
Qed.

(** X14.  Removing duplicates for the table is idempotent and never makes
    the list longer; it leaves the list as it is exactly when no two
    results share a (service name, url) pair. *)
Theorem unique_results_fixed_point (results : list ProbeResult) :
  unique_results (unique_results results) = unique_results results
  /\ (length (unique_results results) <= length results)%nat
  /\ (unique_results results = results
      <-> NoDup (map (fun r => (r_service r, r_url r)) results)).
Proof.
  change (fun r : ProbeResult => (r_service r, r_url r)) with result_key.
  rewrite !unique_results_first_seen.
  assert (forall l, NoDup (map result_key l) -> first_seen ∅ l = l) as Hid.
  { intros l Hl. apply first_seen_id; [ done | ]. intros r _. apply not_elem_of_empty. }
  split; [ apply Hid, first_seen_NoDup | ].
  split; [ apply sublist_length, first_seen_sublist | ].
  split; [ | apply Hid ].
  intros H. rewrite <- H. apply first_seen_NoDup.
Qed.

(** ** URLs without the placeholder *)

Lemma replace_absent (old new s : string) :
  old <> "" -> PyStr.contains old s = false -> PyStr.replace old new s = s.
Proof.
  intros Hne. unfold PyStr.replace. destruct old as [|o old]; [ done | ].
  induction s as [|a s IH]; [ done | ].
  intros H. change (PyStr.contains (String o old) (String a s))
    with (PyStr.startswith (String o old) (String a s)
          || PyStr.contains (String o old) s) in H.
  apply orb_false_iff in H as [Hs Hc].
  change (PyStr.replace_go (String o old) new 0 (String a s))
    with (if PyStr.startswith (String o old) (String a s)
          then new +:+ PyStr.replace_go (String o old) new
                        (Nat.pred (String.length (String o old))) s
          else String a (PyStr.replace_go (String o old) new 0 s)).
  rewrite Hs. f_equal. by apply IH.
Qed.

Lemma contains_lstrip (old : string) (c : ascii) (s : string) :
  PyStr.contains old s = false -> PyStr.contains old (PyStr.lstrip c s) = false.
Proof.
  induction s as [|a s IH]; [ done | ].
  intros H. simpl. destruct (Ascii.eqb a c); [ | exact H ].
  apply IH. simpl in H. by apply orb_false_iff in H as [_ H].
Qed.

Lemma contains_rstrip (old : string) (c : ascii) (s : string) :
  PyStr.contains old s = false -> PyStr.contains old (PyStr.rstrip c s) = false.
Proof.
  intros H. destruct (PyStr.contains old (PyStr.rstrip c s)) eqn:E; [ | done ].
  apply contains_spec in E as (pre & post & E).
  destruct (rstrip_spec c s) as (n & Hn & _).
  assert (PyStr.contains old s = true); [ | congruence ].
  apply contains_spec. exists pre, (post +:+ PyStr.times c n).
  rewrite Hn, E. by rewrite !app_assoc_s.
Qed.

Lemma contains_with_scheme (url : string) :
  PyStr.contains TARGET url = false -> PyStr.contains TARGET (with_scheme url) = false.
Proof.
  intros H. unfold with_scheme. destruct (negb (has_scheme url)); [ | exact H ].
  change (PyStr.contains TARGET ("https://" +:+ url)) with (PyStr.contains TARGET url).
  exact H.
Qed.

Lemma probe_url_split (self : MisconfigMapper) (svc : service)
    (base domain p : string) :
  let host := PyStr.rstrip "/" (with_scheme (PyStr.replace TARGET domain base)) in
  expand_url base domain p = host +:+ "/" +:+ PyStr.lstrip "/" p
  /\ req_url (probe_request self (expand_url base domain p) svc)
     = PyStr.replace TARGET (target self) host
       +:+ "/" +:+ PyStr.replace TARGET (target self) (PyStr.lstrip "/" p).
Proof.
  intros host. split; [ reflexivity | ].
  change (req_url (probe_request self (expand_url base domain p) svc))
    with (PyStr.replace TARGET (target self) (host +:+ String "/" (PyStr.lstrip "/" p))).
  by rewrite replace_app_sep.
Qed.

(** X15.  When neither the base URL nor the path of a template holds the
    placeholder, every permutation yields the same URL, and the request
    goes to this very URL: such a template is probed at one address once
    per permutation. *)
Theorem no_placeholder_same_url (self : MisconfigMapper) (svc : service)
    (base p domain domain' : string) :
  PyStr.contains TARGET base = false ->
  PyStr.contains TARGET p = false ->
  expand_url base domain p = expand_url base domain' p
  /\ req_url (probe_request self (expand_url base domain p) svc)
     = expand_url base domain p.
Proof.
  intros Hb Hp.
  assert (forall d, PyStr.replace TARGET d base = base) as Hrep
    by (intros d; by apply replace_absent).
  split; [ unfold expand_url; by rewrite !Hrep | ].
  destruct (probe_url_split self svc base domain p) as [_ ->].
  rewrite Hrep.
  rewrite (replace_absent TARGET _ (PyStr.rstrip "/" (with_scheme base)))
    by (done || by apply contains_rstrip, contains_with_scheme).
  rewrite (replace_absent TARGET _ (PyStr.lstrip "/" p))
    by (done || by apply contains_lstrip).
  unfold expand_url, join_path. by rewrite Hrep.
Qed.

Lemma no_placeholder_same_url_witness :
  PyStr.contains TARGET "https://status.example.com" = false
  /\ PyStr.contains TARGET "/health" = false
  /\ expand_url "https://status.example.com" "acme" "/health"
     = expand_url "https://status.example.com" "acme-dev" "/health".
Proof.
  split; [ reflexivity | ]. split; [ reflexivity | ].
  exact (proj1 (no_placeholder_same_url Demo.scanner Demo.acme_tool
                  "https://status.example.com" "/health" "acme" "acme-dev"
                  eq_refl eq_refl)).
Defined.

(** ** A scan that finds nothing *)

Lemma no_task_found_no_result (w : world) (self : MisconfigMapper)
    (tasks : list (string * service)) (st : state) :
  List.filter (task_found w self) tasks = [] ->
  not_none (fst (for_each (probe_task w self) tasks st)) = [].
Proof.
  intros Hnone.
  pose proof (batch_discovered w self tasks st) as H1.
  destruct (probe_all_accounting w self tasks st) as (_ & _ & H2 & _).
  simpl in H2. rewrite Hnone in H2. simpl in H2.
  apply nil_length_inv. lia.
Qed.

(** X16.  When the pool can be made and the sleep before a probe returns,
    and no task is answered with a detection fingerprint, a scan with json,
    jsonl, csv or webhook output prints nothing and makes no webhook call,
    while a scan with table output still prints the table, empty, with its
    counts. *)
Theorem scan_without_findings (w : world) (self : MisconfigMapper) (st : state) :
  scan_can_run w self ->
  List.filter (task_found w self)
    (expand_all (services self) (generate_permutations (target self))) = [] ->
  match output_format self with
  | table =>
      console (snd (scan w self st))
      = console st
          ++ [ Text "Scan Results:"; ScanResults []; FoundUnique 0;
               TotalDiscovered (discovered st) ]
          ++ (if Nat.ltb 0 (errors (snd (scan w self st)))
              then [EncounteredErrors (errors (snd (scan w self st)))] else [])
  | _ =>
      console (snd (scan w self st)) = console st
      /\ posted (snd (scan w self st)) = posted st
  end.
Proof.
  intros Hrun Hnone. rewrite (proj2 (scan_runs w self st Hrun)). cbv zeta.
  set (tasks := expand_all (services self) (generate_permutations (target self))) in *.
  set (st0 := if verbose self then snd (logging_debug "Generated URLs to test" st)
              else st).
  assert (console st0 = console st /\ posted st0 = posted st
          /\ discovered st0 = discovered st) as (Hc0 & Hp0 & Hd0)
    by (subst st0; by destruct (verbose self)).
  simpl fst. simpl snd.
  rewrite (no_task_found_no_result w self tasks st0 Hnone).
  destruct (probe_all_accounting w self tasks st0) as (_ & _ & Hd & Hp & Hc).
  set (st1 := snd (for_each (probe_task w self) tasks st0)) in *.
  simpl in Hd, Hp, Hc. rewrite Hnone in Hd. simpl in Hd.
  destruct (output_format self).
  - rewrite display_table_state.
    change (unique_results []) with (@nil ProbeResult).
    cbn [snd console errors map length].
    rewrite Hc, Hc0. by replace (discovered st1) with (discovered st) by lia.
  - split; simpl; congruence.
  - split; simpl; congruence.
  - split; simpl; congruence.
  - split; simpl; congruence.
Qed.

Lemma scan_without_findings_witness :
  scan_can_run Demo.server quiet_scanner
  /\ List.filter (task_found Demo.server quiet_scanner)
       (expand_all (services quiet_scanner)
          (generate_permutations (target quiet_scanner))) = []
  /\ console (snd (scan Demo.server quiet_scanner initial_state)) = []
  /\ posted (snd (scan Demo.server quiet_scanner initial_state)) = [].
Proof.
  assert (scan_can_run Demo.server quiet_scanner) as Hrun
    by (split; reflexivity).
  split; [ exact Hrun | ]. split; [ vm_compute; reflexivity | ].
  apply (scan_without_findings Demo.server quiet_scanner initial_state Hrun).
  vm_compute. reflexivity.
Defined.
